(** * whisper-server: the result-normalisation pipeline of the two
      [/inference] handlers

    Shallow embedding of [src/whisper_server_fast.py] and
    [src/whisper_server_simple.py].

    Modelling conventions.
    - A Python [str] is the list of its Unicode code points ([pystr]);
      [strip], [split] and [join] follow CPython's [str] methods, with the
      whitespace table of [str.isspace].
    - A Python [float] is modelled by the rational number it denotes ([Q]);
      [round(x, ndigits)] rounds the exact value half-to-even at [ndigits]
      decimals, [int * float] is the exact product.  Equalities between
      computed numbers are therefore stated with [==] ([Qeq]).
    - Dictionaries with literal keys ([request.files], [request.args], the
      result dictionary of the simple backend) are [gmap string _]; the
      dictionaries handed to [jsonify] are [PDict] association lists.
    - The speech-recognition model is external: it is a function from the
      language hint to either a raised exception or its return value.
      Saving the upload to a temporary file and removing it again do not
      touch the response and are left out.
    - [logger] calls are kept as a list of structured log records. *)

From Stdlib Require Import QArith Qround Qabs Lia Lqa List.
From stdpp Require Import gmap strings list.

Local Open Scope Q_scope.

(** ** Python builtins used by the handlers *)

Module Py.

(** A string is a sequence of code points. *)
Definition pystr : Type := list N.

(** ASCII literals of the source, as code points. *)
Definition str (s : string) : pystr :=
  List.map Ascii.N_of_ascii (String.list_ascii_of_string s).

(** [str.isspace] on one code point (CPython's [_PyUnicode_IsWhitespace]). *)
Definition isspace (c : N) : bool :=
  (((0x09 <=? c) && (c <=? 0x0D)) || ((0x1C <=? c) && (c <=? 0x20))
   || (c =? 0x85) || (c =? 0xA0) || (c =? 0x1680)
   || ((0x2000 <=? c) && (c <=? 0x200A))
   || (c =? 0x2028) || (c =? 0x2029) || (c =? 0x202F) || (c =? 0x205F)
   || (c =? 0x3000))%N.

(** Truth value of a string or of a list: non-empty. *)
Definition truthy {A} (l : list A) : bool :=
  match l with [] => false | _ :: _ => true end.

Fixpoint lstrip (s : pystr) : pystr :=
  match s with
  | [] => []
  | c :: r => if isspace c then lstrip r else s
  end.

Definition rstrip (s : pystr) : pystr := rev (lstrip (rev s)).

(** [s.strip()] *)
Definition strip (s : pystr) : pystr := rstrip (lstrip s).

(** [s.split()] with no separator: the maximal runs of non-whitespace.
    [tok] is the run being read. *)
Fixpoint split_run (tok : pystr) (s : pystr) : list pystr :=
  match s with
  | [] => if truthy tok then [tok] else []
  | c :: r =>
      if isspace c
      then (if truthy tok then tok :: split_run [] r else split_run [] r)
      else split_run (tok ++ [c]) r
  end.

Definition split (s : pystr) : list pystr := split_run [] s.

(** [sep.join(parts)] *)
Fixpoint join (sep : pystr) (parts : list pystr) : pystr :=
  match parts with
  | [] => []
  | [p] => p
  | p :: rest => p ++ sep ++ join sep rest
  end.

(** [round(x, ndigits)] on a float, [ndigits >= 0]: nearest multiple of
    [10^-ndigits], ties to the even multiple. *)
Definition round_half_even (y : Q) : Z :=
  let f := Qfloor y in
  match Qcompare (y - inject_Z f)%Q (1 # 2)%Q with
  | Lt => f
  | Gt => (f + 1)%Z
  | Eq => if Z.even f then f else (f + 1)%Z
  end.

Definition round (x : Q) (ndigits : nat) : Q :=
  let scale := (10 ^ Z.of_nat ndigits)%Z in
  Qred (inject_Z (round_half_even (x * inject_Z scale)%Q) / inject_Z scale)%Q.

(** [enumerate(l)] *)
Definition enumerate {A} (l : list A) : list (nat * A) :=
  imap (fun i x => (i, x)) l.

(** Exceptions, with the text [str(e)] gives. *)
Inductive exn :=
| KeyError (key : string)
| AttributeError (type_name attr : string)
| TypeError (msg : string)
| Exception (msg : pystr).

Definition str_exn (e : exn) : pystr :=
  match e with
  | KeyError k => str ("'" +:+ k +:+ "'")
  | AttributeError t a =>
      str ("'" +:+ t +:+ "' object has no attribute '" +:+ a +:+ "'")
  | TypeError m => str m
  | Exception m => m
  end.

(** Values that flow through dictionaries and into [jsonify]. *)
#[local] Unset Elimination Schemes.
Inductive pyval :=
| PNone
| PBool (b : bool)
| PInt (z : Z)
| PFloat (x : Q)
| PStr (s : pystr)
| PList (l : list pyval)
| PDict (kv : list (string * pyval)).
#[local] Set Elimination Schemes.

Definition type_name (v : pyval) : string :=
  match v with
  | PNone => "NoneType" | PBool _ => "bool" | PInt _ => "int"
  | PFloat _ => "float" | PStr _ => "str" | PList _ => "list"
  | PDict _ => "dict"
  end.

(** Keys of a dictionary, in insertion order; [d[k]] as an option. *)
Definition keys (v : pyval) : list string :=
  match v with PDict kv => List.map fst kv | _ => [] end.

Fixpoint assoc (k : string) (kv : list (string * pyval)) : option pyval :=
  match kv with
  | [] => None
  | (k', v) :: r => if String.eqb k k' then Some v else assoc k r
  end.

Definition getitem (v : pyval) (k : string) : option pyval :=
  match v with PDict kv => assoc k kv | _ => None end.

End Py.

Import Py.

(** ** Logging *)

Inductive level := INFO | WARNING | ERROR.

(** The messages of both handlers, with their interpolated values. *)
Inductive message :=
| MsgTranscribing (language : pystr)
| MsgProcessing (n : nat)
| MsgSegmentText (segment_text : pystr)
| MsgHasWords (has_words : bool)
| MsgFoundWords (n : nat)
| MsgWord (word_text : pystr) (probability : Q)
| MsgWordsListEmpty
| MsgErrorExtracting (e : exn)
| MsgNoWordLevelData
| MsgTranscription (full_text : pystr)
| MsgLanguage (language : pyval) (probability : option Q)
| MsgTotalWords (n : nat)
| MsgCreatingFallback
| MsgCreatedFallback (n : nat)
| MsgTranscriptionError (e : exn).

Definition log_record : Type := level * message.

(** An HTTP response: the JSON body and the status code. *)
Definition response : Type := pyval * nat.

Record FileStorage := { filename : pystr }.

Record Request := {
  files : gmap string FileStorage;
  args : gmap string pystr
}.

(** ** The faster-whisper handler: [src/whisper_server_fast.py] *)

Module Fast.

(** A word object of the backend (faster-whisper's [Word]: a string and
    three floats). *)
Record Word := { word : pystr; start : Q; end_ : Q; probability : Q }.

(** What [segment.words] can be: the attribute is missing, it is [None],
    or it is a value handed to [list(...)], which collects [items] and
    then either stops or raises [failure] (a value that cannot be
    iterated yields no item and raises). *)
Inductive WordsAttr :=
| NoAttribute
| IsNone
| Iterable (items : list Word) (failure : option exn).

Record Segment := { text : pystr; words : WordsAttr }.

(** The [info] object of the backend. *)
Record TranscriptionInfo := { language : pystr; language_probability : Q }.

(** [model.transcribe(tmp_path, language=language, ...)] followed by
    [list(segments)]: raises, or gives the segments and [info]. *)
Definition Model : Type :=
  pystr -> exn + (list Segment * TranscriptionInfo).

(** The dictionary [word_data], keys "word", "start", "end",
    "probability". *)
Record WordData := {
  d_word : pystr; d_start : Q; d_end : Q; d_probability : Q
}.

(** The mutable locals of [transcribe], and the log. *)
Record State := {
  words_data : list WordData;
  full_text_parts : list pystr;
  log : list log_record
}.

(** A small state monad over [State]. *)
Definition M (A : Type) : Type := State -> A * State.

Definition ret {A} (a : A) : M A := fun st => (a, st).

Definition bind {A B} (m : M A) (k : A -> M B) : M B :=
  fun st => let (a, st') := m st in k a st'.

Notation "'do' x <- m ; k" := (bind m (fun x => k))
  (at level 10, x name, m at level 100, k at level 200).
Notation "m ;; k" := (bind m (fun _ => k))
  (at level 100, k at level 200, right associativity).

Definition exec {A} (m : M A) (st : State) : State := snd (m st).

Definition logger (l : level) (msg : message) : M unit :=
  fun st => (tt, {| words_data := words_data st;
                    full_text_parts := full_text_parts st;
                    log := log st ++ [(l, msg)] |}).

(** [words_data.append(word_data)] *)
Definition words_data_append (word_data : WordData) : M unit :=
  fun st => (tt, {| words_data := words_data st ++ [word_data];
                    full_text_parts := full_text_parts st;
                    log := log st |}).

(** [full_text_parts.append(s)] *)
Definition full_text_parts_append (s : pystr) : M unit :=
  fun st => (tt, {| words_data := words_data st;
                    full_text_parts := full_text_parts st ++ [s];
                    log := log st |}).

Definition get_words_data : M (list WordData) :=
  fun st => (words_data st, st).

Definition get_full_text_parts : M (list pystr) :=
  fun st => (full_text_parts st, st).

(** [for x in l: body x] *)
Fixpoint for_ {A} (l : list A) (body : A -> M unit) : M unit :=
  match l with
  | [] => ret tt
  | x :: r => body x ;; for_ r body
  end.

Definition when (b : bool) (m : M unit) : M unit :=
  if b then m else ret tt.

(** [hasattr(segment, 'words')] and [segment.words is not None] *)
Definition hasattr_words (segment : Segment) : bool :=
  match words segment with NoAttribute => false | _ => true end.

Definition is_not_None (w : WordsAttr) : bool :=
  match w with IsNone => false | _ => true end.

(** [list(segment.words)] *)
Definition list_ (w : WordsAttr) : exn + list Word :=
  match w with
  | Iterable items None => inr items
  | Iterable _ (Some e) => inl e
  | IsNone => inl (TypeError "'NoneType' object is not iterable")
  | NoAttribute => inl (AttributeError "Segment" "words")
  end.

(** Lines 107-117: one word of a segment. *)
Definition word_body (word_info : Word) : M unit :=
  let word_text := strip (word word_info) in
  when (truthy word_text)
    (let word_data := {| d_word := word_text;
                         d_start := round (start word_info) 2;
                         d_end := round (end_ word_info) 2;
                         d_probability := round (probability word_info) 3 |} in
     words_data_append word_data ;;
     full_text_parts_append word_text ;;
     logger INFO (MsgWord word_text (probability word_info))).

(** Lines 92-128: one segment. *)
Definition segment_body (segment : Segment) : M unit :=
  let segment_text := strip (text segment) in
  logger INFO (MsgSegmentText segment_text) ;;
  let has_words := hasattr_words segment in
  logger INFO (MsgHasWords has_words) ;;
  if has_words && is_not_None (words segment) then
    match list_ (words segment) with
    | inr words_list =>
        logger INFO (MsgFoundWords (length words_list)) ;;
        if truthy words_list then for_ words_list word_body
        else
          logger WARNING MsgWordsListEmpty ;;
          full_text_parts_append segment_text
    | inl e =>
        logger ERROR (MsgErrorExtracting e) ;;
        full_text_parts_append segment_text
    end
  else
    logger WARNING MsgNoWordLevelData ;;
    when (truthy segment_text) (full_text_parts_append segment_text).

Definition estimated_duration : Q := 0.5.

(** Lines 143-149: one token of the fallback. *)
Definition fallback_body (iw : nat * pystr) : M unit :=
  let (i, word) := iw in
  when (truthy (strip word))
    (words_data_append
       {| d_word := strip word;
          d_start := round (inject_Z (Z.of_nat i) * estimated_duration) 2;
          d_end := round (inject_Z (Z.of_nat (i + 1)) * estimated_duration) 2;
          d_probability := 0.75 |}).

(** Lines 138-150: the fallback on the joined text. *)
Definition fallback (full_text : pystr) : M unit :=
  do wd <- get_words_data ;
  when (negb (truthy wd) && truthy full_text)
    (logger WARNING MsgCreatingFallback ;;
     let words := split full_text in
     for_ (enumerate words) fallback_body ;;
     do wd' <- get_words_data ;
     logger INFO (MsgCreatedFallback (length wd'))).

Definition word_json (w : WordData) : pyval :=
  PDict [("word", PStr (d_word w)); ("start", PFloat (d_start w));
         ("end", PFloat (d_end w)); ("probability", PFloat (d_probability w))].

(** [words_data[-1]["end"] if words_data else 0.0] *)
Definition total_duration (words_data : list WordData) : Q :=
  match last words_data with
  | Some w => d_end w
  | None => 0.0
  end.

(** Lines 84-135: the loop over the segments and the joined text. *)
Definition extract (segments_list : list Segment) (info : TranscriptionInfo)
  : M pystr :=
  logger INFO (MsgProcessing (length segments_list)) ;;
  for_ segments_list segment_body ;;
  do parts <- get_full_text_parts ;
  let full_text := join (str " ") parts in
  logger INFO (MsgTranscription full_text) ;;
  logger INFO (MsgLanguage (PStr (language info))
                           (Some (language_probability info))) ;;
  do wd <- get_words_data ;
  logger INFO (MsgTotalWords (length wd)) ;;
  ret full_text.

(** Lines 84-161: from the backend's return value to the response
    dictionary. *)
Definition normalize (segments_list : list Segment) (info : TranscriptionInfo)
  : M pyval :=
  do full_text <- extract segments_list info ;
  fallback full_text ;;
  do words_data <- get_words_data ;
  ret (PDict [("text", PStr full_text);
              ("language", PStr (language info));
              ("language_probability", PFloat (language_probability info));
              ("words", PList (List.map word_json words_data));
              ("total_duration", PFloat (total_duration words_data))]).

Definition init (log0 : list log_record) : State :=
  {| words_data := []; full_text_parts := []; log := log0 |}.

(** The handler of [POST /inference]: the response and the log. *)
Definition transcribe (request : Request) (model : Model)
  : response * list log_record :=
  match files request !! "file" with
  | None => ((PDict [("error", PStr (str "No file provided"))], 400%nat), [])
  | Some audio_file =>
      if negb (truthy (filename audio_file))
      then ((PDict [("error", PStr (str "No file selected"))], 400%nat), [])
      else
        let language := default (str "ar") (args request !! "language") in
        let log0 := [(INFO, MsgTranscribing language)] in
        match model language with
        | inr (segments_list, info) =>
            let (body, st) := normalize segments_list info (init log0) in
            ((body, 200%nat), log st)
        | inl e =>
            ((PDict [("error", PStr (str_exn e))], 500%nat),
             log0 ++ [(ERROR, MsgTranscriptionError e)])
        end
  end.

End Fast.

(** ** The OpenAI-whisper handler: [src/whisper_server_simple.py] *)

Module Simple.

(** [model.transcribe(tmp_path, language=language, fp16=False)]: raises,
    or gives the result dictionary. *)
Definition Model : Type := pystr -> exn + gmap string pyval.

(** The handler of [POST /inference]: the response and the log. *)
Definition transcribe (request : Request) (model : Model)
  : response * list log_record :=
  match files request !! "file" with
  | None => ((PDict [("error", PStr (str "No file provided"))], 400%nat), [])
  | Some audio_file =>
      if negb (truthy (filename audio_file))
      then ((PDict [("error", PStr (str "No file selected"))], 400%nat), [])
      else
        let language := default (str "ar") (args request !! "language") in
        let log0 := [(INFO, MsgTranscribing language)] in
        let failed e :=
          ((PDict [("error", PStr (str_exn e))], 500%nat),
           log0 ++ [(ERROR, MsgTranscriptionError e)]) in
        match model language with
        | inr result =>
            (* result["text"].strip() *)
            match result !! "text" with
            | Some (PStr s) =>
                let text := strip s in
                ((PDict [("text", PStr text);
                         ("language",
                          default (PStr language) (result !! "language"));
                         ("language_probability", PFloat 1.0)], 200%nat),
                 log0 ++
                 [(INFO, MsgTranscription text);
                  (INFO, MsgLanguage
                           (default (PStr (str "unknown"))
                                    (result !! "language")) None)])
            | Some v => failed (AttributeError (type_name v) "strip")
            | None => failed (KeyError "text")
            end
        | inl e => failed e
        end
  end.

End Simple.

(** ** Vocabulary of the statements *)

(** A code point that is not whitespace; a string without whitespace. *)
Definition nonspace (c : N) : Prop := isspace c = false.

(** A string that [strip] leaves alone and that is not empty. *)
Definition trimmed_nonempty (s : pystr) : Prop := s <> [] /\ strip s = s.

(** The first and the last code point of a string are not whitespace. *)
Definition no_outer_space (s : pystr) : Prop :=
  match s with [] => True | c :: _ => nonspace c end /\
  match last s with None => True | Some c => nonspace c end.

(** [r] is [x] rounded to [n] decimal places: a multiple of [10^-n] at
    distance at most half a unit of the last place. *)
Definition rounded_to (n : nat) (x r : Q) : Prop :=
  (exists k : Z, r * inject_Z (10 ^ Z.of_nat n) == inject_Z k) /\
  Qabs (r - x) * inject_Z (2 * 10 ^ Z.of_nat n) <= 1.

Module FastSpec.
Import Fast.

(** A backend word that line 108 accepts, and the dictionary built for
    it at lines 109-114. *)
Definition accepted (w : Word) : bool := truthy (strip (word w)).

Definition emit (w : Word) : WordData :=
  {| d_word := strip (word w);
     d_start := round (start w) 2;
     d_end := round (end_ w) 2;
     d_probability := round (probability w) 3 |}.

(** The words of a segment that [list(segment.words)] delivers. *)
Definition readable (segment : Segment) : list Word :=
  match words segment with
  | Iterable items None => items
  | _ => []
  end.

(** What one segment adds to [words_data] and to [full_text_parts]. *)
Definition segment_words (segment : Segment) : list WordData :=
  List.map emit (List.filter accepted (readable segment)).

Definition segment_parts (segment : Segment) : list pystr :=
  match words segment with
  | Iterable [] None => [strip (text segment)]
  | Iterable items None =>
      List.map (fun w => strip (word w)) (List.filter accepted items)
  | Iterable _ (Some _) => [strip (text segment)]
  | IsNone | NoAttribute =>
      if truthy (strip (text segment)) then [strip (text segment)] else []
  end.

(** The synthetic entry of token [i]. *)
Definition synthetic (i : nat) (token : pystr) : WordData :=
  {| d_word := token;
     d_start := round (inject_Z (Z.of_nat i) * estimated_duration) 2;
     d_end := round (inject_Z (Z.of_nat (i + 1)) * estimated_duration) 2;
     d_probability := 0.75 |}.

(** The two paths that append the segment text without testing it
    (lines 120 and 123): an empty word list, a failed read. *)
Definition unguarded (segment : Segment) : Prop :=
  match words segment with
  | Iterable [] None | Iterable _ (Some _) => True
  | _ => False
  end.

(** The warning of line 139 is in a log. *)
Definition fallback_logged (l : list log_record) : Prop :=
  In (WARNING, MsgCreatingFallback) l.

(** [st'] is [st] with [dw] appended to [words_data], [dp] appended to
    [full_text_parts], and log records other than the fallback warning. *)
Definition grows (st st' : State) (dw : list WordData) (dp : list pystr)
  : Prop :=
  words_data st' = words_data st ++ dw /\
  full_text_parts st' = full_text_parts st ++ dp /\
  exists l, log st' = log st ++ l /\ ~ fallback_logged l.

(** Start times are in non-decreasing order. *)
Definition ordered (starts : list Q) : Prop :=
  forall i j a b, (i <= j)%nat ->
    starts !! i = Some a -> starts !! j = Some b -> a <= b.

End FastSpec.

(** ** Concrete inputs *)

Module Examples.
Import Fast.

Definition request_with_file : Request :=
  {| files := {[ "file" := {| filename := str "clip.flac" |} ]};
     args := ∅ |}.

Definition info_ar : TranscriptionInfo :=
  {| language := str "ar"; language_probability := 0.99 |}.

Definition fast_model (segments_list : list Segment) : Fast.Model :=
  fun _ => inr (segments_list, info_ar).

Definition blank_word : Word :=
  {| word := str "  "; start := 0; end_ := 0.1; probability := 0.5 |}.

(** A segment whose only word is blank. *)
Definition blank_only : Segment :=
  {| text := str "hello"; words := Iterable [blank_word] None |}.

(** A segment with an empty word list and an empty text. *)
Definition silent : Segment :=
  {| text := str ""; words := Iterable [] None |}.

(** A segment with an empty word list and a text. *)
Definition wordless : Segment :=
  {| text := str " hey "; words := Iterable [] None |}.

(** A segment without word-level data. *)
Definition plain : Segment := {| text := str "hi"; words := IsNone |}.

(** A segment whose [words] cannot be iterated. *)
Definition unreadable : Segment :=
  {| text := str " oops ";
     words := Iterable [] (Some (TypeError "'int' object is not iterable")) |}.

Definition spoken : Segment :=
  {| text := str " hello world";
     words := Iterable
       [ {| word := str " hello"; start := 0.0; end_ := 0.4;
            probability := 0.91 |};
         blank_word;
         {| word := str " world"; start := 0.4; end_ := 0.7;
            probability := 0.88 |} ] None |}.

(** Example 1 of the specification: U+0645 U+0631 U+062D U+0628 U+0627,
    a space, U+0628 U+0643. *)
Definition marhaban : pystr := [0x645; 0x631; 0x62D; 0x628; 0x627]%N.
Definition bik : pystr := [0x628; 0x643]%N.

Definition greeting : Segment :=
  {| text := marhaban ++ str " " ++ bik;
     words := Iterable
       [ {| word := marhaban; start := 0.0; end_ := 0.4; probability := 0.91 |};
         {| word := bik; start := 0.4; end_ := 0.7; probability := 0.88 |} ]
       None |}.

(** Words that the backend delivers against the clock. *)
Definition out_of_order : Segment :=
  {| text := str "b a";
     words := Iterable
       [ {| word := str "b"; start := 1.0; end_ := 1.5; probability := 0.9 |};
         {| word := str "a"; start := 0.0; end_ := 0.5; probability := 0.9 |} ]
       None |}.

(** A result dictionary of the simple backend without 'language'. *)
Definition simple_model : Simple.Model :=
  fun _ => inr {[ "text" := PStr (str " hello ") ]}.

End Examples.

(** ** Start-up, health check and the temporary file

    The rest of the two scripts: [load_model], [health], the start-up code
    under [__main__], and the handlers with the module-level [model] and
    the temporary file they create.  The file system is the set of
    existing paths; the backend reads the file and leaves the file system
    alone.  [print] calls are left out. *)

Module App.

Inductive startup_message :=
| MsgLoadingModel
| MsgModelLoaded
| MsgErrorLoadingModel (e : exn).

(** [load_model()] (lines 25-38 of the fast script, 24-35 of the simple
    one).  [construct] is what the constructor of the backend does; the
    global [model] is passed in and returned. *)
Definition load_model {Model : Type}
    (construct : exn + Model) (model : option Model)
  : bool * option Model * list (level * startup_message) :=
  match construct with
  | inr m => (true, Some m, [(INFO, MsgLoadingModel); (INFO, MsgModelLoaded)])
  | inl e => (false, model,
              [(INFO, MsgLoadingModel); (ERROR, MsgErrorLoadingModel e)])
  end.

(** [health()]: [model is not None] under "model_loaded". *)
Definition health {Model : Type} (model_name : string) (model : option Model)
  : response :=
  (PDict [("status", PStr (str "ok"));
          ("model_loaded",
           PBool (match model with Some _ => true | None => false end));
          ("model_name", PStr (str model_name))], 200%nat).

(** What the script does when run: [exit(1)], or [app.run] with the
    global [model] as [load_model] left it. *)
Inductive process {Model : Type} :=
| Exited (code : Z)
| Running (model : option Model) (host : string) (port : Z).
Arguments process : clear implicits.

(** The code under [if __name__ == '__main__']; the global starts as
    [None]. *)
Definition main {Model : Type} (construct : exn + Model)
  : process Model * list (level * startup_message) :=
  let '(ok, model, lg) := load_model construct None in
  if negb ok then (Exited 1, lg)
  else (Running model "0.0.0.0" 9000, lg).

(** What the handler meets outside the request: the path that
    [tempfile.NamedTemporaryFile(delete=False, ...)] creates, or its
    exception, and the exception of [audio_file.save], if any. *)
Record IO := {
  NamedTemporaryFile : exn + string;
  save : option exn
}.

(** [if os.path.exists(tmp_path): os.unlink(tmp_path)] *)
Definition unlink_if_exists (tmp_path : string) (fs : gset string)
  : gset string :=
  if decide (tmp_path ∈ fs) then fs ∖ {[tmp_path]} else fs.

End App.

Module FastApp.
Import Fast App.

(** [model.transcribe(...)] on the global: [None] has no such method. *)
Definition call (model : option Fast.Model) : Fast.Model :=
  match model with
  | Some m => m
  | None => fun _ => inl (AttributeError "NoneType" "transcribe")
  end.

Definition health : option Fast.Model -> response :=
  App.health "faster-whisper-base".

(** Lines 41-171 with the global [model], the temporary file and the
    file system: the response, the log and the paths that exist
    afterwards. *)
Definition transcribe (request : Request) (model : option Fast.Model)
    (io : IO) (fs : gset string)
  : (response * list log_record) * gset string :=
  match files request !! "file" with
  | None =>
      (((PDict [("error", PStr (str "No file provided"))], 400%nat), []), fs)
  | Some audio_file =>
      if negb (truthy (filename audio_file))
      then
        (((PDict [("error", PStr (str "No file selected"))], 400%nat), []), fs)
      else
        let language := default (str "ar") (args request !! "language") in
        let log0 := [(INFO, MsgTranscribing language)] in
        let failed (e : exn) (fs' : gset string) :=
          (((PDict [("error", PStr (str_exn e))], 500%nat),
            log0 ++ [(ERROR, MsgTranscriptionError e)]), fs') in
        match NamedTemporaryFile io with
        | inl e => failed e fs
        | inr tmp_path =>
            let fs1 := fs ∪ {[tmp_path]} in
            match save io with
            | Some e => failed e fs1
            | None =>
                match call model language with
                | inr (segments_list, info) =>
                    let (body, st) :=
                      normalize segments_list info (init log0) in
                    (* os.unlink(tmp_path) *)
                    (((body, 200%nat), log st), fs1 ∖ {[tmp_path]})
                | inl e => failed e (unlink_if_exists tmp_path fs1)
                end
            end
        end
  end.

End FastApp.

Module SimpleApp.
Import App.

Definition call (model : option Simple.Model) : Simple.Model :=
  match model with
  | Some m => m
  | None => fun _ => inl (AttributeError "NoneType" "transcribe")
  end.

Definition health : option Simple.Model -> response :=
  App.health "openai-whisper-base".

(** Lines 38-95 with the global [model], the temporary file and the
    file system. *)
Definition transcribe (request : Request) (model : option Simple.Model)
    (io : IO) (fs : gset string)
  : (response * list log_record) * gset string :=
  match files request !! "file" with
  | None =>
      (((PDict [("error", PStr (str "No file provided"))], 400%nat), []), fs)
  | Some audio_file =>
      if negb (truthy (filename audio_file))
      then
        (((PDict [("error", PStr (str "No file selected"))], 400%nat), []), fs)
      else
        let language := default (str "ar") (args request !! "language") in
        let log0 := [(INFO, MsgTranscribing language)] in
        let failed (e : exn) (fs' : gset string) :=
          (((PDict [("error", PStr (str_exn e))], 500%nat),
            log0 ++ [(ERROR, MsgTranscriptionError e)]), fs') in
        match NamedTemporaryFile io with
        | inl e => failed e fs
        | inr tmp_path =>
            let fs1 := fs ∪ {[tmp_path]} in
            match save io with
            | Some e => failed e fs1
            | None =>
                match call model language with
                | inr result =>
                    match result !! "text" with
                    | Some (PStr s) =>
                        let text := strip s in
                        (* os.unlink(tmp_path) *)
                        (((PDict [("text", PStr text);
                                  ("language",
                                   default (PStr language)
                                           (result !! "language"));
                                  ("language_probability", PFloat 1.0)],
                           200%nat),
                          log0 ++
                          [(INFO, MsgTranscription text);
                           (INFO, MsgLanguage
                                    (default (PStr (str "unknown"))
                                             (result !! "language")) None)]),
                         fs1 ∖ {[tmp_path]})
                    | Some v =>
                        failed (AttributeError (type_name v) "strip")
                               (unlink_if_exists tmp_path fs1)
                    | None =>
                        failed (KeyError "text")
                               (unlink_if_exists tmp_path fs1)
                    end
                | inl e => failed e (unlink_if_exists tmp_path fs1)
                end
            end
        end
  end.

End SimpleApp.

(** ** Further vocabulary *)

Module Pipeline.
Import Fast FastSpec.

(** The status, the body and the word list of a response. *)
Definition status (r : response * list log_record) : nat := snd (fst r).
Definition body (r : response * list log_record) : pyval := fst (fst r).

(** The upload passes the two tests at the head of the handlers. *)
Definition accepted_upload (request : Request) : Prop :=
  exists audio_file,
    files request !! "file" = Some audio_file /\ filename audio_file <> [].

(** The language handed to the backend. *)
Definition language_hint (request : Request) : pystr :=
  default (str "ar") (args request !! "language").

(** The word list of the response for given segments. *)
Definition response_words (segments_list : list Segment)
    (info : TranscriptionInfo) : list WordData :=
  words_data (snd (normalize segments_list info (init []))).

(** The text of the response for given segments. *)
Definition response_text (segments_list : list Segment)
    (info : TranscriptionInfo) : pystr :=
  fst (extract segments_list info (init [])).

(** [r] has at most [n] decimal places. *)
Definition decimal (n : nat) (r : Q) : Prop :=
  exists k : Z, r * inject_Z (10 ^ Z.of_nat n) == inject_Z k.

(** The exception of a segment whose word list cannot be read. *)
Definition read_failure (segment : Segment) : option exn :=
  match words segment with
  | Iterable _ (Some e) => Some e
  | _ => None
  end.

Definition is_error (r : log_record) : bool :=
  match fst r with ERROR => true | _ => false end.

(** A segment that leaves no trace in the response: no word with a
    non-empty trimmed text, and either words that are all blank, or no
    word-level data and an empty trimmed text. *)
Definition silent_segment (segment : Segment) : Prop :=
  match words segment with
  | Iterable (w :: ws) None => List.filter accepted (w :: ws) = []
  | IsNone | NoAttribute => strip (text segment) = []
  | _ => False
  end.

(** The fallback of lines 138-150 is taken for these segments. *)
Definition fallback_mode (segments_list : list Segment)
    (info : TranscriptionInfo) : Prop :=
  words_data (snd (extract segments_list info (init []))) = [] /\
  response_text segments_list info <> [].

End Pipeline.

(** ** Further concrete inputs *)

Module MoreExamples.
Import Fast App.

Definition request_without_file : Request := {| files := ∅; args := ∅ |}.

(** The temporary file is created and the upload is saved. *)
Definition io_ok : IO :=
  {| NamedTemporaryFile := inr "/tmp/tmpk3v9.flac"%string; save := None |}.

(** The temporary file is created and saving the upload raises. *)
Definition io_save_fails : IO :=
  {| NamedTemporaryFile := inr "/tmp/tmpk3v9.flac"%string;
     save := Some (Exception (str "No space left on device")) |}.

Definition other_files : gset string := {[ "/tmp/keep.txt"%string ]}.

(** A backend whose result has a language of its own. *)
Definition simple_model_fr : Simple.Model :=
  fun _ => inr {[ "text" := PStr (str " bonjour ");
                  "language" := PStr (str "fr") ]}.

End MoreExamples.

(** ** Strings *)

Section Strings.

Lemma truthy_true {A} (l : list A) : truthy l = true <-> l <> [].
Proof. destruct l; simpl; split; congruence. Qed.

Lemma truthy_false {A} (l : list A) : truthy l = false <-> l = [].
Proof. destruct l; simpl; split; congruence. Qed.

Lemma lstrip_nonspace (s : pystr) :
  Forall nonspace s -> lstrip s = s.
Proof.
  destruct 1 as [|c r Hc _]; simpl; [reflexivity|].
  unfold nonspace in Hc. now rewrite Hc.
Qed.

Lemma strip_nonspace (s : pystr) :
  Forall nonspace s -> strip s = s.
Proof.
  intros H. unfold strip, rstrip.
  rewrite (lstrip_nonspace s H).
  rewrite lstrip_nonspace; [apply rev_involutive|].
  apply List.Forall_rev. exact H.
Qed.

(** Every token of [split] is a non-empty run without whitespace. *)
Lemma split_run_tokens (s tok : pystr) :
  Forall nonspace tok ->
  Forall (fun t => t <> [] /\ Forall nonspace t) (split_run tok s).
Proof.
  revert tok. induction s as [|c r IH]; intros tok Htok; simpl.
  - destruct tok; simpl; constructor; [|constructor].
    split; [discriminate|assumption].
  - destruct (isspace c) eqn:Hc.
    + destruct tok as [|t0 tok']; simpl.
      * apply IH. constructor.
      * constructor; [split; [discriminate|assumption]|].
        apply IH. constructor.
    + apply IH. apply Forall_app. split; [assumption|].
      constructor; [exact Hc|constructor].
Qed.

Lemma split_tokens (s : pystr) :
  Forall (fun t => t <> [] /\ Forall nonspace t) (split s).
Proof. apply split_run_tokens. constructor. Qed.

Lemma split_tokens_trimmed (s : pystr) :
  Forall trimmed_nonempty (split s).
Proof.
  eapply Forall_impl; [apply split_tokens|].
  intros t [Hne Hns]. split; [exact Hne|now apply strip_nonspace].
Qed.

Lemma lstrip_head (s : pystr) :
  match lstrip s with [] => True | c :: _ => nonspace c end.
Proof.
  induction s as [|c r IH]; simpl; [exact I|].
  destruct (isspace c) eqn:Hc; [exact IH|exact Hc].
Qed.

Lemma lstrip_suffix (s : pystr) : exists pre, s = pre ++ lstrip s.
Proof.
  induction s as [|c r [pre IH]]; simpl; [now exists []|].
  destruct (isspace c); [|now exists []].
  exists (c :: pre). simpl. now rewrite <- IH.
Qed.

(** [strip] leaves no whitespace at either end. *)
Lemma strip_no_outer_space (s : pystr) : no_outer_space (strip s).
Proof.
  unfold strip, rstrip.
  pose proof (lstrip_head s) as Hu. set (u := lstrip s) in *. clearbody u.
  pose proof (lstrip_head (rev u)) as Hv.
  destruct (lstrip_suffix (rev u)) as [pre Hpre].
  set (v := lstrip (rev u)) in *. clearbody v.
  destruct v as [|c v']; [split; exact I|].
  assert (Hu' : u = (rev v' ++ [c]) ++ rev pre).
  { rewrite <- (rev_involutive u), Hpre, rev_app_distr. reflexivity. }
  split.
  - simpl rev. rewrite Hu' in Hu.
    destruct (rev v' ++ [c]) as [|c0 t] eqn:E; [|exact Hu].
    destruct (rev v'); discriminate.
  - simpl rev. rewrite last_snoc. exact Hv.
Qed.

Lemma no_outer_space_strip (s : pystr) : no_outer_space s -> strip s = s.
Proof.
  intros [Hh Hl]. unfold strip, rstrip.
  assert (E : lstrip s = s).
  { destruct s as [|c r]; [reflexivity|]. simpl.
    unfold nonspace in Hh. now rewrite Hh. }
  rewrite E. destruct (last s) as [c|] eqn:El.
  - apply last_Some in El as [l' ->]. rewrite rev_app_distr. simpl.
    unfold nonspace in Hl. rewrite Hl. simpl.
    now rewrite rev_involutive.
  - apply last_None in El. subst s. reflexivity.
Qed.

Lemma trimmed_nonempty_outer (s : pystr) :
  trimmed_nonempty s -> s <> [] /\ no_outer_space s.
Proof.
  intros [Hne Hs]. split; [exact Hne|].
  rewrite <- Hs. apply strip_no_outer_space.
Qed.

Lemma strip_trimmed (s : pystr) :
  strip s <> [] -> trimmed_nonempty (strip s).
Proof.
  intros Hne. split; [exact Hne|].
  apply no_outer_space_strip, strip_no_outer_space.
Qed.

Lemma join_nonempty (sep p : pystr) (rest : list pystr) :
  p <> [] -> join sep (p :: rest) <> [].
Proof.
  intros Hp. destruct rest; simpl; [exact Hp|].
  destruct p; [congruence|discriminate].
Qed.

(** Joining non-empty trimmed strings gives a trimmed string. *)
Lemma join_no_outer_space (sep : pystr) (parts : list pystr) :
  Forall trimmed_nonempty parts -> no_outer_space (join sep parts).
Proof.
  induction 1 as [|p rest Hp Hrest IH]; [split; exact I|].
  apply trimmed_nonempty_outer in Hp as [Hne [Hh Hl]].
  destruct rest as [|q rest']; [split; assumption|].
  change (join sep (p :: q :: rest'))
    with (p ++ sep ++ join sep (q :: rest')).
  inversion Hrest as [|? ? [Hq _] _]; subst.
  pose proof (join_nonempty sep q rest' Hq) as Hj.
  set (j := join sep (q :: rest')) in *. clearbody j.
  split.
  - destruct p; [congruence|exact Hh].
  - destruct IH as [_ IHl].
    destruct (last j) as [c|] eqn:El.
    + apply last_Some in El as [l' ->].
      rewrite !app_assoc, last_snoc. exact IHl.
    + apply last_None in El. congruence.
Qed.

(** A join with a non-empty separator is empty only if every part is. *)
Lemma join_nil (sep : pystr) (parts : list pystr) :
  sep <> [] -> join sep parts = [] -> Forall (fun p => p = []) parts.
Proof.
  intros Hsep. induction parts as [|p rest IH]; intros H; [constructor|].
  destruct rest as [|q rest'].
  - simpl in H. subst p. constructor; constructor.
  - change (p ++ sep ++ join sep (q :: rest') = []) in H.
    apply app_eq_nil in H as [_ H]. apply app_eq_nil in H as [H _].
    congruence.
Qed.

End Strings.

(** ** Numbers *)

Section Numbers.

Lemma round_half_even_comp (x y : Q) :
  x == y -> round_half_even x = round_half_even y.
Proof.
  intros H. unfold round_half_even. cbv zeta.
  rewrite (Qfloor_comp _ _ H).
  assert (E : x - inject_Z (Qfloor y) == y - inject_Z (Qfloor y))
    by (now apply Qplus_comp).
  rewrite (Qcompare_comp _ _ E _ _ (Qeq_refl (1 # 2))). reflexivity.
Qed.

Lemma round_half_even_Z (k : Z) : round_half_even (inject_Z k) = k.
Proof.
  unfold round_half_even. rewrite Qfloor_Z.
  destruct (Qcompare_spec (inject_Z k - inject_Z k) (1 # 2)) as [H|H|H];
    [lra|reflexivity|lra].
Qed.

Lemma round_half_even_bounds (y : Q) :
  (Qfloor y <= round_half_even y <= Qfloor y + 1)%Z.
Proof.
  unfold round_half_even.
  destruct (Qcompare (y - inject_Z (Qfloor y)) (1 # 2));
    [destruct (Z.even (Qfloor y))| |]; lia.
Qed.

Lemma round_half_even_near (y : Q) :
  Qabs (inject_Z (round_half_even y) - y) <= 1 # 2.
Proof.
  pose proof (Qfloor_le y) as Hlo. pose proof (Qlt_floor y) as Hhi.
  rewrite -> inject_Z_plus in Hhi. change (inject_Z 1) with 1 in Hhi.
  unfold round_half_even. cbv zeta. apply Qabs_Qle_condition.
  destruct (Qcompare_spec (y - inject_Z (Qfloor y)) (1 # 2)) as [H|H|H].
  - destruct (Z.even (Qfloor y)); [lra|].
    rewrite -> inject_Z_plus. change (inject_Z 1) with 1. lra.
  - lra.
  - rewrite -> inject_Z_plus. change (inject_Z 1) with 1. lra.
Qed.

Lemma round_half_even_mono (x y : Q) :
  x <= y -> (round_half_even x <= round_half_even y)%Z.
Proof.
  intros Hxy. pose proof (Qfloor_resp_le x y Hxy) as Hf.
  destruct (Z.eq_dec (Qfloor x) (Qfloor y)) as [He|Hne].
  - unfold round_half_even. rewrite He.
    destruct (Qcompare_spec (x - inject_Z (Qfloor y)) (1 # 2)) as [Hx|Hx|Hx];
    destruct (Qcompare_spec (y - inject_Z (Qfloor y)) (1 # 2)) as [Hy|Hy|Hy];
      try destruct (Z.even (Qfloor y)); try lia; lra.
  - pose proof (round_half_even_bounds x). pose proof (round_half_even_bounds y).
    lia.
Qed.

Lemma scale_pos (n : nat) : (0 < 10 ^ Z.of_nat n)%Z.
Proof. apply Z.pow_pos_nonneg; lia. Qed.

Lemma scale_pos_Q (n : nat) : 0 < inject_Z (10 ^ Z.of_nat n).
Proof. change 0 with (inject_Z 0). rewrite <- Zlt_Qlt. apply scale_pos. Qed.

Lemma round_eq (x : Q) (n : nat) :
  round x n ==
  inject_Z (round_half_even (x * inject_Z (10 ^ Z.of_nat n)))
  / inject_Z (10 ^ Z.of_nat n).
Proof. unfold round. apply Qred_correct. Qed.

(** [round] is monotone. *)
Lemma round_mono (x y : Q) (n : nat) : x <= y -> round x n <= round y n.
Proof.
  intros Hxy. rewrite !round_eq. pose proof (scale_pos_Q n) as Hs.
  apply Qmult_le_compat_r.
  - rewrite <- Zle_Qle. apply round_half_even_mono.
    apply Qmult_le_compat_r; [exact Hxy|lra].
  - apply Qlt_le_weak, Qinv_lt_0_compat, Hs.
Qed.

(** [round] leaves a multiple of [10^-n] unchanged. *)
Lemma round_exact (x : Q) (n : nat) (k : Z) :
  x * inject_Z (10 ^ Z.of_nat n) == inject_Z k -> round x n == x.
Proof.
  intros H. rewrite round_eq, (round_half_even_comp _ _ H), round_half_even_Z.
  rewrite <- H. pose proof (scale_pos_Q n). field. lra.
Qed.

(** [round] gives the nearest multiple of [10^-n]. *)
Lemma round_rounded_to (x : Q) (n : nat) : rounded_to n x (round x n).
Proof.
  pose proof (scale_pos_Q n) as Hs. split.
  - exists (round_half_even (x * inject_Z (10 ^ Z.of_nat n))).
    rewrite round_eq. field. lra.
  - set (s := inject_Z (10 ^ Z.of_nat n)) in *.
    pose proof (round_half_even_near (x * s)) as Hn.
    assert (Hr : round x n - x == (inject_Z (round_half_even (x * s)) - x * s) / s).
    { rewrite round_eq. fold s. field. lra. }
    rewrite Hr. unfold Qdiv. rewrite Qabs_Qmult.
    rewrite (Qabs_pos (/ s)) by (apply Qlt_le_weak, Qinv_lt_0_compat, Hs).
    rewrite inject_Z_mult. fold s.
    assert (He : Qabs (inject_Z (round_half_even (x * s)) - x * s) * / s *
                 (inject_Z 2 * s) ==
                 Qabs (inject_Z (round_half_even (x * s)) - x * s) * 2).
    { field. lra. }
    rewrite He. lra.
Qed.

(** [i * 0.5] has at most one decimal: rounding at two keeps it. *)
Lemma round_halves (i : nat) :
  round (inject_Z (Z.of_nat i) * 0.5) 2 == inject_Z (Z.of_nat i) * 0.5.
Proof.
  apply (round_exact _ 2 (50 * Z.of_nat i)).
  rewrite inject_Z_mult. change (inject_Z (10 ^ Z.of_nat 2)) with 100.
  change (inject_Z 50) with 50. field.
Qed.

End Numbers.

(** ** The loop over the segments *)

Section Extractor.
Import Fast FastSpec.

Lemma exec_seq {B} (m : M unit) (k : M B) (st : State) :
  (m ;; k) st = k (exec m st).
Proof. unfold bind, exec. destruct (m st) as [[] st']. reflexivity. Qed.

Lemma exec_exec_seq (m k : M unit) (st : State) :
  exec (m ;; k) st = exec k (exec m st).
Proof. unfold exec at 1. now rewrite exec_seq. Qed.

Lemma grows_refl st : grows st st [] [].
Proof.
  unfold grows. rewrite !app_nil_r. repeat split.
  exists []. rewrite app_nil_r. split; [reflexivity|]. intros [].
Qed.

Lemma grows_trans st1 st2 st3 dw1 dp1 dw2 dp2 :
  grows st1 st2 dw1 dp1 -> grows st2 st3 dw2 dp2 ->
  grows st1 st3 (dw1 ++ dw2) (dp1 ++ dp2).
Proof.
  intros (Hw1 & Hp1 & l1 & Hl1 & Hn1) (Hw2 & Hp2 & l2 & Hl2 & Hn2).
  unfold grows. rewrite Hw2, Hw1, Hp2, Hp1, !app_assoc.
  repeat split. exists (l1 ++ l2). rewrite Hl2, Hl1, app_assoc.
  split; [reflexivity|]. unfold fallback_logged in *.
  rewrite in_app_iff. tauto.
Qed.

Lemma grows_logger lv msg st :
  msg <> MsgCreatingFallback ->
  grows st (exec (logger lv msg) st) [] [].
Proof.
  intros Hmsg. unfold grows, exec, logger; simpl. rewrite !app_nil_r.
  repeat split. exists [(lv, msg)]. split; [reflexivity|].
  intros [H|[]]. congruence.
Qed.

Lemma grows_words_data_append w st :
  grows st (exec (words_data_append w) st) [w] [].
Proof.
  unfold grows, exec, words_data_append; simpl. rewrite !app_nil_r.
  repeat split. exists []. rewrite app_nil_r. split; [reflexivity|].
  intros [].
Qed.

Lemma grows_full_text_parts_append s st :
  grows st (exec (full_text_parts_append s) st) [] [s].
Proof.
  unfold grows, exec, full_text_parts_append; simpl. rewrite !app_nil_r.
  repeat split. exists []. rewrite app_nil_r. split; [reflexivity|].
  intros [].
Qed.

Lemma grows_seq (m k : M unit) st dw1 dp1 dw2 dp2 :
  grows st (exec m st) dw1 dp1 ->
  grows (exec m st) (exec k (exec m st)) dw2 dp2 ->
  grows st (exec (m ;; k) st) (dw1 ++ dw2) (dp1 ++ dp2).
Proof. rewrite exec_exec_seq. apply grows_trans. Qed.

(** Lines 107-117. *)
Lemma word_body_grows w st :
  grows st (exec (word_body w) st)
    (if accepted w then [emit w] else [])
    (if accepted w then [strip (word w)] else []).
Proof.
  unfold word_body, accepted, when.
  destruct (truthy (strip (word w))); [|apply grows_refl].
  change [emit w] with ([emit w] ++ [] ++ []).
  change [strip (word w)] with ([] ++ [strip (word w)] ++ []).
  apply grows_seq; [apply grows_words_data_append|].
  apply grows_seq; [apply grows_full_text_parts_append|].
  apply grows_logger. discriminate.
Qed.

(** Lines 106-117: the loop over the words of one segment. *)
Lemma for_words_grows ws st :
  grows st (exec (for_ ws word_body) st)
    (List.map emit (List.filter accepted ws))
    (List.map (fun w => strip (word w)) (List.filter accepted ws)).
Proof.
  revert st. induction ws as [|w ws IH]; intros st; simpl for_.
  - apply grows_refl.
  - pose proof (word_body_grows w st) as Hw.
    pose proof (IH (exec (word_body w) st)) as Hr.
    pose proof (grows_seq _ _ _ _ _ _ _ Hw Hr) as H.
    simpl List.filter. destruct (accepted w); exact H.
Qed.

Lemma grows_logger_seq lv msg (k : M unit) st dw dp :
  msg <> MsgCreatingFallback ->
  (forall st', grows st' (exec k st') dw dp) ->
  grows st (exec (logger lv msg ;; k) st) dw dp.
Proof.
  intros Hmsg Hk.
  change dw with ([] ++ dw). change dp with ([] ++ dp).
  apply grows_seq; [now apply grows_logger|apply Hk].
Qed.

Lemma grows_when_append s st :
  grows st (exec (when (truthy s) (full_text_parts_append s)) st)
    [] (if truthy s then [s] else []).
Proof.
  unfold when. destruct (truthy s);
    [apply grows_full_text_parts_append|apply grows_refl].
Qed.

(** Lines 92-128: one segment. *)
Lemma segment_body_grows segment st :
  grows st (exec (segment_body segment) st)
    (segment_words segment) (segment_parts segment).
Proof.
  unfold segment_body, segment_words, segment_parts, readable, hasattr_words.
  apply grows_logger_seq; [discriminate|]. clear st. intros st.
  apply grows_logger_seq; [discriminate|]. clear st. intros st.
  destruct (words segment) as [| |items [e|]]; simpl.
  - apply grows_logger_seq; [discriminate|]. intros st'.
    apply grows_when_append.
  - apply grows_logger_seq; [discriminate|]. intros st'.
    apply grows_when_append.
  - apply grows_logger_seq; [discriminate|]. intros st'.
    destruct items; apply grows_full_text_parts_append.
  - apply grows_logger_seq; [discriminate|]. intros st'.
    destruct items as [|w ws].
    + simpl. apply grows_logger_seq; [discriminate|]. intros st''.
      apply grows_full_text_parts_append.
    + cbv [truthy]. apply for_words_grows.
Qed.

(** Lines 91-128: the loop over the segments. *)
Lemma for_segments_grows segments_list st :
  grows st (exec (for_ segments_list segment_body) st)
    (flat_map segment_words segments_list)
    (flat_map segment_parts segments_list).
Proof.
  revert st. induction segments_list as [|sg r IH]; intros st; simpl.
  - apply grows_refl.
  - apply grows_seq; [apply segment_body_grows|apply IH].
Qed.

(** Lines 84-135: the state and the text handed to the fallback. *)
Lemma extract_spec segments_list info st :
  let st1 := snd (extract segments_list info st) in
  fst (extract segments_list info st) =
    join (str " ") (full_text_parts st1) /\
  grows st st1 (flat_map segment_words segments_list)
               (flat_map segment_parts segments_list).
Proof.
  unfold extract. rewrite exec_seq, exec_seq.
  set (st0 := exec (logger INFO (MsgProcessing (length segments_list))) st).
  assert (H0 : grows st st0 [] []) by (apply grows_logger; discriminate).
  pose proof (for_segments_grows segments_list st0) as H1.
  pose proof (grows_trans _ _ _ _ _ _ _ H0 H1) as H. simpl in H.
  clearbody st0. clear H0 H1.
  set (st' := exec (for_ segments_list segment_body) st0) in *.
  clearbody st'. cbn. split; [reflexivity|].
  destruct H as (Hw & Hp & l & Hl & Hn). unfold grows; cbn.
  repeat split; [exact Hw|exact Hp|].
  eexists. rewrite Hl, <- !app_assoc. split; [reflexivity|].
  unfold fallback_logged in *. rewrite in_app_iff. simpl.
  intros [H|[H|[H|[H|[]]]]]; try discriminate. tauto.
Qed.

End Extractor.

(** ** The fallback and the response dictionary *)

Section Fallback.
Import Fast FastSpec.

(** Lines 142-149 on tokens that [split] produced. *)
Lemma fallback_loop (tokens : list pystr) (f : nat -> nat) (st : State) :
  Forall trimmed_nonempty tokens ->
  exec (for_ (imap (fun i x => (f i, x)) tokens) fallback_body) st =
  {| words_data := words_data st ++ imap (fun i t => synthetic (f i) t) tokens;
     full_text_parts := full_text_parts st;
     log := log st |}.
Proof.
  intros Htok. revert f st.
  induction Htok as [|t tokens [Hne Hstrip] _ IH]; intros f st.
  - destruct st; simpl. unfold exec; simpl. now rewrite app_nil_r.
  - simpl for_. rewrite exec_exec_seq.
    change (imap ((fun i x => (f i, x)) ∘ S) tokens)
      with (imap (fun i x => ((f ∘ S) i, x)) tokens).
    rewrite IH. unfold fallback_body. rewrite Hstrip.
    apply truthy_true in Hne. rewrite Hne. simpl.
    now rewrite <- app_assoc.
Qed.

(** Lines 138-150. *)
Lemma fallback_spec (full_text : pystr) (st : State) :
  exec (fallback full_text) st =
  if negb (truthy (words_data st)) && truthy full_text
  then {| words_data := imap synthetic (split full_text);
          full_text_parts := full_text_parts st;
          log := log st ++
                 [(WARNING, MsgCreatingFallback);
                  (INFO, MsgCreatedFallback (length (split full_text)))] |}
  else st.
Proof.
  unfold fallback, exec at 1, bind at 1, get_words_data.
  destruct (words_data st) as [|w0 wd] eqn:Hwd; simpl; [|reflexivity].
  destruct (truthy full_text); simpl; [|reflexivity].
  rewrite exec_seq, exec_seq. unfold enumerate.
  rewrite (fallback_loop _ (fun i => i)) by apply split_tokens_trimmed.
  unfold bind, get_words_data, logger, exec; simpl. rewrite Hwd; simpl.
  rewrite length_imap, <- app_assoc. reflexivity.
Qed.

(** Lines 84-161 in two phases. *)
Lemma normalize_phases segments_list info st :
  let full_text := fst (extract segments_list info st) in
  let st2 := exec (fallback full_text) (snd (extract segments_list info st)) in
  normalize segments_list info st =
  (PDict [("text", PStr full_text);
          ("language", PStr (language info));
          ("language_probability", PFloat (language_probability info));
          ("words", PList (List.map word_json (words_data st2)));
          ("total_duration", PFloat (total_duration (words_data st2)))],
   st2).
Proof.
  unfold normalize, bind at 1.
  destruct (extract segments_list info st) as [full_text st1]. simpl.
  rewrite exec_seq. reflexivity.
Qed.

(** What the loop leaves in [words_data] and [full_text_parts] when it
    starts from empty lists. *)
Lemma extract_init segments_list info log0 :
  let st1 := snd (extract segments_list info (init log0)) in
  words_data st1 = flat_map segment_words segments_list /\
  full_text_parts st1 = flat_map segment_parts segments_list /\
  fst (extract segments_list info (init log0)) =
    join (str " ") (flat_map segment_parts segments_list) /\
  exists l, log st1 = log0 ++ l /\ ~ fallback_logged l.
Proof.
  destruct (extract_spec segments_list info (init log0))
    as (Hft & Hw & Hp & Hl).
  simpl in *. rewrite Hft, Hp. auto.
Qed.

Lemma segment_words_readable segments_list :
  flat_map segment_words segments_list =
  List.map emit (List.filter accepted (flat_map readable segments_list)).
Proof.
  induction segments_list as [|sg r IH]; simpl; [reflexivity|].
  rewrite List.filter_app, List.map_app, IH. reflexivity.
Qed.

End Fallback.

(** ** Properties of the pipeline *)

Section Claims.
Import Fast FastSpec.

(** C1.  The fallback of lines 138-150 runs (its warning is logged)
    exactly when, after the loop over all segments, [words_data] is empty
    and [full_text] is not.  It then leaves in [words_data] one entry per
    token of [full_text.split()], in order: token [i] gets the token as
    word, start [i * 0.5], end [(i + 1) * 0.5] and probability [0.75].
    When the loop produced a word, [words_data] is left as it is.  The
    response carries that list. *)
Theorem fallback_synthesizer_trigger_and_output
    (segments_list : list Segment) (info : TranscriptionInfo)
    (log0 : list log_record) :
  let full_text := fst (extract segments_list info (init log0)) in
  let st1 := snd (extract segments_list info (init log0)) in
  let st2 := snd (normalize segments_list info (init log0)) in
  (exists trace, log st2 = log st1 ++ trace /\
     (fallback_logged trace <-> words_data st1 = [] /\ full_text <> [])) /\
  ((words_data st1 = [] /\ full_text <> []) ->
     length (words_data st2) = length (split full_text) /\
     forall (i : nat) (token : pystr),
       split full_text !! i = Some token ->
       exists w, words_data st2 !! i = Some w /\
         d_word w = token /\
         d_start w == inject_Z (Z.of_nat i) * 0.5 /\
         d_end w == inject_Z (Z.of_nat (i + 1)) * 0.5 /\
         d_probability w == 0.75) /\
  (words_data st1 <> [] -> words_data st2 = words_data st1) /\
  getitem (fst (normalize segments_list info (init log0))) "words" =
    Some (PList (List.map word_json (words_data st2))).
Proof.
  intros full_text st1 st2. subst st2.
  rewrite normalize_phases. fold full_text st1. cbn [fst snd].
  rewrite fallback_spec.
  split; [|split; [|split; [|reflexivity]]].
  - destruct (words_data st1) as [|w0 wd]; simpl.
    + destruct full_text as [|c ft]; simpl.
      * exists []. rewrite app_nil_r. split; [reflexivity|].
        split; [intros []|intros [_ H]; congruence].
      * eexists. split; [reflexivity|].
        split; [intros _; split; [reflexivity|discriminate]|].
        intros _. left. reflexivity.
    + exists []. rewrite app_nil_r. split; [reflexivity|].
      split; [intros []|intros [H _]; discriminate].
  - intros [Hwd Hft]. rewrite Hwd. apply truthy_true in Hft.
    rewrite Hft. simpl. split; [apply length_imap|].
    intros i token Hi. exists (synthetic i token).
    rewrite list_lookup_imap, Hi. simpl.
    split; [reflexivity|]. split; [reflexivity|].
    unfold estimated_duration.
    split; [apply round_halves|]. split; [apply round_halves|reflexivity].
  - intros Hwd. apply truthy_true in Hwd. now rewrite Hwd.
Qed.

(** C4.  When some segment delivers a word whose trimmed text is not
    empty, the word list of the response is the list of all delivered
    words, in input order, without those whose trimmed text is empty,
    each with its trimmed text, its start and end rounded to 2 decimal
    places and its probability rounded to 3. *)
Theorem extractor_filters_in_order_and_rounds
    (segments_list : list Segment) (info : TranscriptionInfo)
    (log0 : list log_record) :
  (exists segment w, In segment segments_list /\ In w (readable segment) /\
                     strip (word w) <> []) ->
  let delivered := flat_map readable segments_list in
  let kept := List.filter (fun w => truthy (strip (word w))) delivered in
  let out := words_data (snd (normalize segments_list info (init log0))) in
  length out = length kept /\
  (forall (i : nat) (w : Word), kept !! i = Some w ->
    exists d, out !! i = Some d /\
      d_word d = strip (word w) /\
      d_start d = round (start w) 2 /\ rounded_to 2 (start w) (d_start d) /\
      d_end d = round (end_ w) 2 /\ rounded_to 2 (end_ w) (d_end d) /\
      d_probability d = round (probability w) 3 /\
      rounded_to 3 (probability w) (d_probability d)) /\
  getitem (fst (normalize segments_list info (init log0))) "words" =
    Some (PList (List.map word_json out)).
Proof.
  intros (segment & w & Hs & Hw & Hacc) delivered kept out.
  assert (Hbody : getitem (fst (normalize segments_list info (init log0)))
                    "words" = Some (PList (List.map word_json out)))
    by (subst out; rewrite normalize_phases; reflexivity).
  assert (Hout : out = List.map emit kept).
  { subst out. rewrite normalize_phases. cbn [snd].
    rewrite fallback_spec.
    destruct (extract_init segments_list info log0) as (Hwd & _).
    rewrite segment_words_readable in Hwd. fold delivered in Hwd.
    change (List.filter accepted delivered) with kept in Hwd.
    assert (Hk : In w kept).
    { apply List.filter_In. split.
      - apply in_flat_map. exists segment. auto.
      - now apply truthy_true. }
    rewrite Hwd. destruct kept; [destruct Hk|exact Hwd]. }
  rewrite Hout in *. split; [apply length_map|]. split; [|exact Hbody].
  intros i w' Hi. exists (emit w').
  rewrite list_lookup_fmap, Hi. simpl.
  repeat split; try reflexivity; apply round_rounded_to.
Qed.

(** C5.  In every successful response of the faster-whisper handler,
    [total_duration] is the end of the last element of [words], and 0.0
    when [words] is empty. *)
Theorem total_duration_is_last_end
    (request : Request) (model : Model) (body : pyval)
    (lg : list log_record) :
  transcribe request model = ((body, 200%nat), lg) ->
  exists words_data : list WordData,
    getitem body "words" = Some (PList (List.map word_json words_data)) /\
    getitem body "total_duration" =
      Some (PFloat (match last words_data with
                    | Some w => d_end w
                    | None => 0.0
                    end)).
Proof.
  unfold transcribe. intros H.
  destruct (files request !! "file") as [audio_file|]; [|discriminate].
  destruct (negb (truthy (filename audio_file))); [discriminate|].
  destruct (model _) as [e|[segments_list info]]; [discriminate|].
  rewrite normalize_phases in H. injection H as Hb _. subst body.
  eexists. split; reflexivity.
Qed.



Lemma grows_words st st' dw dp :
  grows st st' dw dp ->
  words_data st' = words_data st ++ dw /\
  full_text_parts st' = full_text_parts st ++ dp.
Proof. intros (Hw & Hp & _). auto. Qed.

(** C2 (amended).  For a segment whose word list is delivered and holds
    no word with a non-empty trimmed text, nothing is added to
    [words_data]; when the word list has no element at all, the trimmed
    segment text is appended to [full_text_parts] as one unit. *)
Theorem blank_words_excluded_empty_list_falls_back
    (segment : Segment) (items : list Word) (st : State) :
  words segment = Iterable items None ->
  List.filter (fun w => truthy (strip (word w))) items = [] ->
  let st' := exec (segment_body segment) st in
  words_data st' = words_data st /\
  (items = [] ->
   full_text_parts st' = full_text_parts st ++ [strip (text segment)]).
Proof.
  intros Hw Hf st'.
  destruct (grows_words _ _ _ _ (segment_body_grows segment st)) as [Hwd Hp].
  fold st' in Hwd, Hp.
  unfold segment_words, segment_parts, readable in *. rewrite Hw in *.
  change (List.filter accepted items) with
    (List.filter (fun w => truthy (strip (word w))) items) in *.
  rewrite Hf in Hwd. simpl in Hwd. rewrite app_nil_r in Hwd.
  split; [exact Hwd|]. intros ->. exact Hp.
Qed.



Lemma segment_parts_trimmed (segment : Segment) :
  (unguarded segment -> strip (text segment) <> []) ->
  Forall trimmed_nonempty (segment_parts segment).
Proof.
  unfold unguarded, segment_parts. intros Hu.
  assert (Ht : Forall trimmed_nonempty
                 (if truthy (strip (text segment))
                  then [strip (text segment)] else [])).
  { destruct (truthy (strip (text segment))) eqn:E; constructor;
      [|constructor]. now apply strip_trimmed, truthy_true. }
  destruct (words segment) as [| |items [e|]]; try exact Ht.
  - destruct items; (constructor; [apply strip_trimmed, Hu, I|constructor]).
  - destruct items as [|w ws];
      [constructor; [apply strip_trimmed, Hu, I|constructor]|].
    generalize (w :: ws). intros l.
    induction l as [|x l IH]; simpl; [constructor|].
    destruct (accepted x) eqn:E; [|exact IH].
    constructor; [|exact IH]. now apply strip_trimmed, truthy_true.
Qed.

Lemma segment_parts_empty (segment : Segment) :
  Forall (fun p => p = []) (segment_parts segment) ->
  List.filter accepted (readable segment) = [] /\
  (readable segment = [] -> strip (text segment) = []).
Proof.
  unfold segment_parts, readable.
  destruct (words segment) as [| |items [e|]].
  - intros H. split; [reflexivity|intros _].
    destruct (truthy (strip (text segment))) eqn:E;
      [now inversion H|now apply truthy_false].
  - intros H. split; [reflexivity|intros _].
    destruct (truthy (strip (text segment))) eqn:E;
      [now inversion H|now apply truthy_false].
  - intros H. split; [reflexivity|intros _].
    destruct items; now inversion H.
  - destruct items as [|w ws].
    + intros H. split; [reflexivity|intros _; now inversion H].
    + intros H. split; [|discriminate].
      destruct (List.filter accepted (w :: ws)) as [|x l] eqn:E;
        [reflexivity|].
      assert (Hx : In x (List.filter accepted (w :: ws)))
        by (rewrite E; now left).
      apply List.filter_In in Hx as [_ Hx].
      apply truthy_true in Hx. inversion H; subst. congruence.
Qed.

(** C7 (amended).  The [text] of the response is the single-space join
    of what the segments contribute, in order.  When no segment with an
    empty or unreadable word list has an empty trimmed text, every joined
    piece is non-empty and trimmed, and the text has no whitespace at
    either end.  The text is empty only when no segment delivers a word
    with a non-empty trimmed text and every segment that delivers no
    word has an empty trimmed text. *)
Theorem text_is_join_of_contributions
    (segments_list : list Segment) (info : TranscriptionInfo)
    (log0 : list log_record) :
  let body := fst (normalize segments_list info (init log0)) in
  let parts := flat_map segment_parts segments_list in
  let full_text := join (str " ") parts in
  getitem body "text" = Some (PStr full_text) /\
  ((forall segment, In segment segments_list -> unguarded segment ->
                    strip (text segment) <> []) ->
   Forall trimmed_nonempty parts /\
   strip full_text = full_text /\ no_outer_space full_text) /\
  (full_text = [] ->
   forall segment, In segment segments_list ->
     List.filter (fun w => truthy (strip (word w))) (readable segment) = [] /\
     (readable segment = [] -> strip (text segment) = [])).
Proof.
  intros body parts full_text. split; [|split].
  - subst body. rewrite normalize_phases. cbn [fst].
    destruct (extract_init segments_list info log0) as (_ & _ & Hft & _).
    simpl. now rewrite Hft.
  - intros Hu.
    assert (Hp : Forall trimmed_nonempty parts).
    { subst parts. induction segments_list as [|sg r IH]; simpl;
        [constructor|].
      apply Forall_app. split.
      - apply segment_parts_trimmed. intros Hg. apply Hu; [now left|exact Hg].
      - apply IH. intros sg' Hin. apply Hu. now right. }
    pose proof (join_no_outer_space (str " ") parts Hp) as Ho.
    split; [exact Hp|]. split; [now apply no_outer_space_strip|exact Ho].
  - intros Hnil segment Hin.
    apply join_nil in Hnil; [|discriminate].
    apply segment_parts_empty. subst parts.
    induction segments_list as [|sg r IH]; [destruct Hin|].
    simpl in Hnil. apply Forall_app in Hnil as [H1 H2].
    destruct Hin as [->|Hin]; [exact H1|now apply IH].
Qed.


Lemma ordered_round (n : nat) (l : list Q) :
  ordered l -> ordered (List.map (fun x => round x n) l).
Proof.
  intros Hl i j a b Hij Ha Hb.
  rewrite list_lookup_fmap in Ha. rewrite list_lookup_fmap in Hb.
  destruct (l !! i) as [x|] eqn:Ei; [|discriminate].
  destruct (l !! j) as [y|] eqn:Ej; [|discriminate].
  simpl in Ha, Hb. injection Ha as <-. injection Hb as <-.
  apply round_mono. exact (Hl i j x y Hij Ei Ej).
Qed.

Lemma ordered_synthetic (tokens : list pystr) :
  ordered (List.map d_start (imap synthetic tokens)).
Proof.
  intros i j a b Hij Ha Hb.
  rewrite list_lookup_fmap, list_lookup_imap in Ha.
  rewrite list_lookup_fmap, list_lookup_imap in Hb.
  destruct (tokens !! i) as [x|]; [|discriminate].
  destruct (tokens !! j) as [y|]; [|discriminate].
  simpl in Ha, Hb. injection Ha as <-. injection Hb as <-.
  apply round_mono. apply Qmult_le_compat_r; [|discriminate].
  rewrite <- Zle_Qle. lia.
Qed.

(** C9 (amended).  When the start times of the delivered words with a
    non-empty trimmed text are non-decreasing in the order the backend
    gives them, the start times of [words] in the response are
    non-decreasing; the synthesized words are always in that order. *)
Theorem words_ordered_when_backend_is
    (segments_list : list Segment) (info : TranscriptionInfo)
    (log0 : list log_record) :
  ordered (List.map start
             (List.filter (fun w => truthy (strip (word w)))
                          (flat_map readable segments_list))) ->
  let out := words_data (snd (normalize segments_list info (init log0))) in
  ordered (List.map d_start out) /\
  getitem (fst (normalize segments_list info (init log0))) "words" =
    Some (PList (List.map word_json out)).
Proof.
  intros Hord out. subst out.
  split; [|rewrite normalize_phases; reflexivity].
  rewrite normalize_phases. cbn [snd].
  rewrite fallback_spec.
  destruct (extract_init segments_list info log0) as (Hwd & _).
  rewrite segment_words_readable in Hwd.
  destruct (negb _ && _).
  - apply ordered_synthetic.
  - rewrite Hwd, List.map_map. simpl.
    rewrite <- (List.map_map start (fun x => round x 2)).
    apply ordered_round. exact Hord.
Qed.

Lemma fast_success (request : Request) (model : Model) (body : pyval)
    (lg : list log_record) :
  transcribe request model = ((body, 200%nat), lg) ->
  exists segments_list info log0,
    body = fst (normalize segments_list info (init log0)).
Proof.
  unfold transcribe. intros H.
  destruct (files request !! "file") as [audio_file|]; [|discriminate].
  destruct (negb (truthy (filename audio_file))); [discriminate|].
  destruct (model _) as [e|[segments_list info]]; [discriminate|].
  exists segments_list, info. eexists.
  destruct (normalize segments_list info _) as [b st] eqn:E.
  injection H as <- _. now rewrite E.
Qed.

(** C6 (amended).  Every successful response of the faster-whisper
    handler is an object with the five fields text, language,
    language_probability, words and total_duration, where words is an
    array of objects with the keys word, start, end and probability.
    Every successful response of the OpenAI-whisper handler is an object
    with the three fields text, language and language_probability. *)
Theorem response_fields (request : Request) :
  (forall model body lg,
     Fast.transcribe request model = ((body, 200%nat), lg) ->
     keys body = ["text"; "language"; "language_probability"; "words";
                  "total_duration"] /\
     exists text lang prob words duration,
       body = PDict [("text", PStr text); ("language", PStr lang);
                     ("language_probability", PFloat prob);
                     ("words", PList words);
                     ("total_duration", PFloat duration)] /\
       Forall (fun w => keys w = ["word"; "start"; "end"; "probability"])
              words) /\
  (forall model body lg,
     Simple.transcribe request model = ((body, 200%nat), lg) ->
     keys body = ["text"; "language"; "language_probability"]).
Proof.
  split.
  - intros model body lg H.
    apply fast_success in H as (segments_list & info & log0 & ->).
    rewrite normalize_phases. cbn [fst]. split; [reflexivity|].
    do 5 eexists. split; [reflexivity|].
    apply List.Forall_map, List.Forall_forall. reflexivity.
  - intros model body lg. unfold Simple.transcribe.
    destruct (files request !! "file") as [audio_file|]; [|discriminate].
    destruct (negb (truthy (filename audio_file))); [discriminate|].
    destruct (model _) as [e|result]; [discriminate|].
    destruct (result !! "text") as [[]|]; try discriminate.
    intros H. injection H as <- _. reflexivity.
Qed.

(** C10.  In the OpenAI-whisper handler, when the upload is accepted and
    the result dictionary has a string under 'text' and no 'language'
    key, the response is successful and its language field is the
    'language' query parameter, or "ar" when the query has none. *)
Theorem simple_language_defaults_to_hint
    (request : Request) (model : Simple.Model) (audio_file : FileStorage)
    (result : gmap string pyval) (s : pystr) :
  files request !! "file" = Some audio_file ->
  filename audio_file <> [] ->
  model (default (str "ar") (args request !! "language")) = inr result ->
  result !! "text" = Some (PStr s) ->
  result !! "language" = None ->
  exists body lg,
    Simple.transcribe request model = ((body, 200%nat), lg) /\
    getitem body "language" =
      Some (PStr (default (str "ar") (args request !! "language"))).
Proof.
  intros Hfile Hname Hmodel Htext Hlang. unfold Simple.transcribe.
  rewrite Hfile. apply truthy_true in Hname. rewrite Hname. simpl.
  rewrite Hmodel, Htext, Hlang. simpl.
  do 2 eexists. split; reflexivity.
Qed.


Lemma quiet_segments_contribute_nothing (segments_list : list Segment) :
  Forall (fun segment => strip (text segment) = [] /\
                         (words segment = IsNone \/
                          words segment = NoAttribute)) segments_list ->
  flat_map segment_words segments_list = [] /\
  flat_map segment_parts segments_list = [].
Proof.
  induction 1 as [|sg r [Ht Hw] _ [IHw IHp]]; [split; reflexivity|].
  simpl. rewrite IHw, IHp, !app_nil_r.
  unfold segment_words, segment_parts, readable.
  destruct Hw as [-> | ->]; rewrite Ht; split; reflexivity.
Qed.

(** Zero segments, or only segments with an empty trimmed text and no
    word-level data ([words] missing or [None]), give the empty result. *)
Lemma quiet_segments_empty_result
    (segments_list : list Segment) (info : TranscriptionInfo)
    (log0 : list log_record) :
  Forall (fun segment => strip (text segment) = [] /\
                         (words segment = IsNone \/
                          words segment = NoAttribute)) segments_list ->
  fst (normalize segments_list info (init log0)) =
  PDict [("text", PStr []);
         ("language", PStr (language info));
         ("language_probability", PFloat (language_probability info));
         ("words", PList []);
         ("total_duration", PFloat 0.0)].
Proof.
  intros H. apply quiet_segments_contribute_nothing in H as [Hw Hp].
  rewrite normalize_phases. cbn [fst]. rewrite fallback_spec.
  destruct (extract_init segments_list info log0) as (Hwd & _ & Hft & _).
  rewrite Hw in Hwd. rewrite Hp in Hft. simpl in Hft.
  rewrite Hft, Hwd. simpl. rewrite Hwd. reflexivity.
Qed.

(** C8 (the code at the failing input).  Two segments with an empty text
    and an empty word list: the handler succeeds with no words and
    duration 0.0, but [text] is one space, not the empty string. *)
Theorem silent_segments_give_space_text :
  exists body lg,
    transcribe Examples.request_with_file
               (Examples.fast_model [Examples.silent; Examples.silent])
    = ((body, 200%nat), lg) /\
    getitem body "text" = Some (PStr (str " ")) /\
    getitem body "words" = Some (PList []) /\
    getitem body "total_duration" = Some (PFloat 0.0).
Proof.
  do 2 eexists. split; [vm_compute; reflexivity|].
  split; [|split]; reflexivity.
Qed.

End Claims.

(** ** The properties at concrete inputs *)

Section Instances.
Import Fast FastSpec Examples.

(** A request without a language parameter reaches the backend with the
    hint "ar"; the words of [spoken] come back trimmed and rounded. *)
Example spoken_response :
  fst (transcribe request_with_file (fast_model [spoken])) =
  (PDict [("text", PStr (str "hello world"));
          ("language", PStr (str "ar"));
          ("language_probability", PFloat 0.99);
          ("words",
           PList [PDict [("word", PStr (str "hello")); ("start", PFloat 0);
                         ("end", PFloat (2 # 5));
                         ("probability", PFloat (91 # 100))];
                  PDict [("word", PStr (str "world"));
                         ("start", PFloat (2 # 5));
                         ("end", PFloat (7 # 10));
                         ("probability", PFloat (22 # 25))]]);
          ("total_duration", PFloat (7 # 10))], 200%nat).
Proof. vm_compute. reflexivity. Qed.

(** Example 1 of the specification. *)
Example greeting_response :
  fst (transcribe request_with_file (fast_model [greeting])) =
  (PDict [("text", PStr (marhaban ++ str " " ++ bik));
          ("language", PStr (str "ar"));
          ("language_probability", PFloat 0.99);
          ("words",
           PList [PDict [("word", PStr marhaban); ("start", PFloat 0);
                         ("end", PFloat (2 # 5));
                         ("probability", PFloat (91 # 100))];
                  PDict [("word", PStr bik);
                         ("start", PFloat (2 # 5));
                         ("end", PFloat (7 # 10));
                         ("probability", PFloat (22 # 25))]]);
          ("total_duration", PFloat (7 # 10))], 200%nat).
Proof. vm_compute. reflexivity. Qed.

(** Example 2 of the specification. *)
Example plain_response :
  fst (transcribe request_with_file
         (fast_model [ {| text := str "hello world"; words := IsNone |} ])) =
  (PDict [("text", PStr (str "hello world"));
          ("language", PStr (str "ar"));
          ("language_probability", PFloat 0.99);
          ("words",
           PList [PDict [("word", PStr (str "hello")); ("start", PFloat 0);
                         ("end", PFloat (1 # 2));
                         ("probability", PFloat 0.75)];
                  PDict [("word", PStr (str "world"));
                         ("start", PFloat (1 # 2));
                         ("end", PFloat 1);
                         ("probability", PFloat 0.75)]]);
          ("total_duration", PFloat 1)], 200%nat).
Proof. vm_compute. reflexivity. Qed.

(** C2, as stated, fails: the only word of [blank_only] is blank, and its
    text "hello" is not appended to [full_text_parts]. *)
Lemma blank_only_text_not_appended :
  List.filter (fun w => truthy (strip (word w))) (readable blank_only) = [] /\
  strip (text blank_only) = str "hello" /\
  full_text_parts (exec (segment_body blank_only) (init [])) = [].
Proof. vm_compute. repeat split. Qed.

Lemma blank_words_excluded_empty_list_falls_back_witness :
  (words blank_only = Iterable [blank_word] None /\
   List.filter (fun w => truthy (strip (word w))) [blank_word] = [] /\
   words_data (exec (segment_body blank_only) (init [])) = []) /\
  (words wordless = Iterable [] None /\
   full_text_parts (exec (segment_body wordless) (init [])) = [str "hey"]).
Proof.
  split.
  - split; [reflexivity|]. split; [reflexivity|].
    exact (proj1 (blank_words_excluded_empty_list_falls_back
                    blank_only [blank_word] (init []) eq_refl eq_refl)).
  - split; [reflexivity|].
    exact (proj2 (blank_words_excluded_empty_list_falls_back
                    wordless [] (init []) eq_refl eq_refl) eq_refl).
Defined.


Lemma extractor_filters_in_order_and_rounds_witness :
  (exists segment w, In segment [spoken; plain] /\
                     In w (readable segment) /\ strip (word w) <> []) /\
  length (words_data (snd (normalize [spoken; plain] info_ar (init [])))) = 2%nat.
Proof.
  assert (H : exists segment w, In segment [spoken; plain] /\
                In w (readable segment) /\ strip (word w) <> []).
  { exists spoken. eexists. split; [left; reflexivity|].
    split; [left; reflexivity|]. discriminate. }
  split; [exact H|].
  exact (proj1 (extractor_filters_in_order_and_rounds
                  [spoken; plain] info_ar [] H)).
Defined.

Lemma total_duration_is_last_end_witness :
  let r := transcribe request_with_file (fast_model [spoken]) in
  snd (fst r) = 200%nat /\
  exists words_data : list WordData,
    getitem (fst (fst r)) "words" =
      Some (PList (List.map word_json words_data)) /\
    getitem (fst (fst r)) "total_duration" =
      Some (PFloat (match last words_data with
                    | Some w => d_end w
                    | None => 0.0
                    end)).
Proof.
  cbv zeta. split; [reflexivity|].
  apply (total_duration_is_last_end request_with_file (fast_model [spoken]) _
           (snd (transcribe request_with_file (fast_model [spoken])))).
  reflexivity.
Defined.

(** C6, as stated, fails: a successful response of the OpenAI-whisper
    handler has neither [words] nor [total_duration]. *)
Lemma simple_response_lacks_words :
  let r := Simple.transcribe request_with_file simple_model in
  snd (fst r) = 200%nat /\
  keys (fst (fst r)) = ["text"; "language"; "language_probability"] /\
  getitem (fst (fst r)) "words" = None /\
  getitem (fst (fst r)) "total_duration" = None.
Proof. vm_compute. repeat split. Qed.

Lemma response_fields_witness :
  let r := Simple.transcribe request_with_file simple_model in
  snd (fst r) = 200%nat /\
  keys (fst (fst r)) = ["text"; "language"; "language_probability"].
Proof.
  cbv zeta. split; [reflexivity|].
  apply (proj2 (response_fields request_with_file) simple_model _
           (snd (Simple.transcribe request_with_file simple_model))).
  reflexivity.
Defined.

(** C7, as stated, fails: the text "hello" of [blank_only] is dropped
    and the response text is empty; after a segment with an empty text
    and an empty word list the response text starts with a space. *)
Lemma text_empty_or_untrimmed :
  (getitem (fst (normalize [blank_only] info_ar (init []))) "text" =
     Some (PStr []) /\
   strip (text blank_only) = str "hello") /\
  getitem (fst (normalize [silent; plain] info_ar (init []))) "text" =
    Some (PStr (str " hi")).
Proof. vm_compute. repeat split. Qed.

Lemma text_is_join_of_contributions_witness :
  (forall segment, In segment [wordless; spoken] -> unguarded segment ->
                   strip (text segment) <> []) /\
  getitem (fst (normalize [wordless; spoken] info_ar (init []))) "text" =
    Some (PStr (str "hey hello world")) /\
  strip (str "hey hello world") = str "hey hello world".
Proof.
  assert (H : forall segment, In segment [wordless; spoken] ->
                unguarded segment -> strip (text segment) <> []).
  { intros segment [<-|[<-|[]]] _; discriminate. }
  split; [exact H|].
  destruct (text_is_join_of_contributions [wordless; spoken] info_ar [])
    as (Ht & Hb & _).
  split; [exact Ht|]. exact (proj1 (proj2 (Hb H))).
Defined.

(** C9, as stated, fails: the backend's order is kept, whatever the
    start times are. *)
Lemma out_of_order_words_stay_out_of_order :
  List.map d_start
    (words_data (snd (normalize [out_of_order] info_ar (init [])))) = [1; 0] /\
  ~ ordered (List.map d_start
               (words_data (snd (normalize [out_of_order] info_ar (init []))))).
Proof.
  assert (E : List.map d_start
                (words_data (snd (normalize [out_of_order] info_ar (init []))))
              = [1; 0]) by (vm_compute; reflexivity).
  split; [exact E|]. rewrite E. intros H.
  assert (Hle : 1 <= 0) by (apply (H 0%nat 1%nat); [lia|reflexivity..]).
  unfold Qle in Hle. simpl in Hle. lia.
Qed.

Lemma words_ordered_when_backend_is_witness :
  ordered (List.map start
             (List.filter (fun w => truthy (strip (word w)))
                          (flat_map readable [spoken]))) /\
  ordered (List.map d_start
             (words_data (snd (normalize [spoken] info_ar (init []))))).
Proof.
  assert (H : ordered (List.map start
                (List.filter (fun w => truthy (strip (word w)))
                             (flat_map readable [spoken])))).
  { intros i j a b Hij Ha Hb.
    destruct i as [|[|i]]; destruct j as [|[|j]]; try lia;
      try discriminate; simpl in Ha, Hb;
      injection Ha as <-; injection Hb as <-; discriminate. }
  split; [exact H|].
  exact (proj1 (words_ordered_when_backend_is [spoken] info_ar [] H)).
Defined.

Lemma simple_language_defaults_to_hint_witness :
  exists body lg,
    Simple.transcribe request_with_file simple_model = ((body, 200%nat), lg) /\
    getitem body "language" = Some (PStr (str "ar")).
Proof.
  apply (simple_language_defaults_to_hint request_with_file simple_model
           {| filename := str "clip.flac" |}
           {[ "text" := PStr (str " hello ") ]} (str " hello "));
    try reflexivity.
  discriminate.
Defined.

End Instances.

(** ** The handlers as a whole *)

Section Handlers.
Import Fast FastSpec Pipeline.


Lemma accepted_upload_dec (request : Request) :
  match files request !! "file" with
  | Some audio_file =>
      if truthy (filename audio_file) then accepted_upload request
      else ~ accepted_upload request
  | None => ~ accepted_upload request
  end.
Proof.
  unfold accepted_upload.
  destruct (files request !! "file") as [f|] eqn:E.
  - destruct (truthy (filename f)) eqn:T.
    + exists f. split; [reflexivity|now apply truthy_true].
    + intros (f' & Hf & Hn). injection Hf as <-.
      apply truthy_false in T. congruence.
  - intros (f' & Hf & _). discriminate.
Qed.


(** X2.  A rejected upload never reaches the backend: with a missing
    file or an empty file name both handlers give the same answer and an
    empty log for every model. *)
Theorem rejected_upload_ignores_backend (request : Request) :
  ~ accepted_upload request ->
  (forall model model' : Fast.Model,
     Fast.transcribe request model = Fast.transcribe request model' /\
     snd (Fast.transcribe request model) = []) /\
  (forall model model' : Simple.Model,
     Simple.transcribe request model = Simple.transcribe request model' /\
     snd (Simple.transcribe request model) = []).
Proof.
  intros Hrej. pose proof (accepted_upload_dec request) as Hacc.
  unfold Fast.transcribe, Simple.transcribe.
  destruct (files request !! "file") as [f|];
    [destruct (truthy (filename f)); [contradiction|]|];
    simpl; split; intros; split; reflexivity.
Qed.


End Handlers.

(** ** Invariants of the response of the faster-whisper handler *)

Section Invariants.
Import Fast FastSpec Pipeline.

(** The word list of the response in closed form. *)
Lemma normalize_words segments_list info log0 :
  words_data (snd (normalize segments_list info (init log0))) =
  if negb (truthy (flat_map segment_words segments_list))
     && truthy (join (str " ") (flat_map segment_parts segments_list))
  then imap synthetic
         (split (join (str " ") (flat_map segment_parts segments_list)))
  else flat_map segment_words segments_list.
Proof.
  rewrite normalize_phases. cbn [snd]. rewrite fallback_spec.
  destruct (extract_init segments_list info log0) as (Hw & _ & Hft & _).
  rewrite Hw, Hft. destruct (negb _ && _); [reflexivity|exact Hw].
Qed.

Lemma response_text_eq segments_list info log0 :
  fst (extract segments_list info (init log0)) =
  join (str " ") (flat_map segment_parts segments_list).
Proof. now destruct (extract_init segments_list info log0) as (_ & _ & H & _). Qed.

Lemma normalize_body segments_list info log0 :
  fst (normalize segments_list info (init log0)) =
  PDict [("text", PStr (response_text segments_list info));
         ("language", PStr (language info));
         ("language_probability", PFloat (language_probability info));
         ("words",
          PList (List.map word_json (response_words segments_list info)));
         ("total_duration",
          PFloat (total_duration (response_words segments_list info)))].
Proof.
  rewrite normalize_phases. cbn [fst].
  pose proof (normalize_words segments_list info log0) as H1.
  rewrite normalize_phases in H1. cbn [snd] in H1. rewrite H1.
  unfold response_words, response_text.
  rewrite normalize_words, !response_text_eq. reflexivity.
Qed.


Lemma Forall_imap_synthetic (P : WordData -> Prop) (tokens : list pystr) :
  (forall i t, tokens !! i = Some t -> P (synthetic i t)) ->
  Forall P (imap synthetic tokens).
Proof.
  intros H. apply Forall_lookup. intros i d Hd.
  rewrite list_lookup_imap in Hd.
  destruct (tokens !! i) as [t|] eqn:E; [|discriminate].
  injection Hd as <-. now apply H.
Qed.

Lemma Forall_segment_words (P : WordData -> Prop)
    (segments_list : list Segment) :
  (forall segment w, In segment segments_list -> In w (readable segment) ->
                     accepted w = true -> P (emit w)) ->
  Forall P (flat_map segment_words segments_list).
Proof.
  intros H. apply List.Forall_forall. intros d Hd.
  apply in_flat_map in Hd as (segment & Hs & Hd).
  unfold segment_words in Hd. apply in_map_iff in Hd as (w & <- & Hw).
  apply List.filter_In in Hw as [Hw Ha]. eauto.
Qed.

(** An invariant of the word list: it holds of every entry as soon as it
    holds of every accepted backend word and of every synthetic entry. *)
Lemma response_words_Forall (P : WordData -> Prop)
    (segments_list : list Segment) (info : TranscriptionInfo) :
  (forall segment w, In segment segments_list -> In w (readable segment) ->
                     accepted w = true -> P (emit w)) ->
  (forall i t, split (response_text segments_list info) !! i = Some t ->
               P (synthetic i t)) ->
  Forall P (response_words segments_list info).
Proof.
  intros Hreal Hsyn. unfold response_words. rewrite normalize_words.
  unfold response_text in Hsyn. rewrite response_text_eq in Hsyn.
  destruct (negb _ && _).
  - now apply Forall_imap_synthetic.
  - now apply Forall_segment_words.
Qed.

(** X5.  Every entry of [words] in a response has a word that is not
    empty and has no whitespace at either end, be it a backend word or a
    synthesized one. *)
Theorem response_words_are_trimmed_nonempty
    (segments_list : list Segment) (info : TranscriptionInfo) :
  Forall (fun d => d_word d <> [] /\ strip (d_word d) = d_word d /\
                   no_outer_space (d_word d))
         (response_words segments_list info).
Proof.
  assert (H : forall s, trimmed_nonempty s ->
                s <> [] /\ strip s = s /\ no_outer_space s).
  { intros s Hs. destruct (trimmed_nonempty_outer s Hs). destruct Hs. auto. }
  apply response_words_Forall.
  - intros segment w _ _ Ha. apply H. simpl.
    apply strip_trimmed. now apply truthy_true.
  - intros i t Ht. apply H. simpl.
    pose proof (split_tokens_trimmed (response_text segments_list info)) as Hs.
    rewrite Forall_lookup in Hs. eauto.
Qed.

(** X6.  Every start and end in [words] has at most two decimal places
    and every probability at most three, for backend words and for
    synthesized ones. *)
Theorem response_words_are_decimal
    (segments_list : list Segment) (info : TranscriptionInfo) :
  Forall (fun d => decimal 2 (d_start d) /\ decimal 2 (d_end d) /\
                   decimal 3 (d_probability d))
         (response_words segments_list info).
Proof.
  apply response_words_Forall.
  - intros segment w _ _ _. simpl.
    repeat split; apply round_rounded_to.
  - intros i t _. simpl. repeat split; try apply round_rounded_to.
    exists 750%Z. reflexivity.
Qed.

End Invariants.

Section Ranges.
Import Fast FastSpec Pipeline.

Lemma round_zero (n : nat) : round 0 n == 0.
Proof. apply (round_exact 0 n 0). ring. Qed.

Lemma round_one (n : nat) : round 1 n == 1.
Proof. apply (round_exact 1 n (10 ^ Z.of_nat n)). ring. Qed.

Lemma round_nonneg (x : Q) (n : nat) : 0 <= x -> 0 <= round x n.
Proof. intros H. rewrite <- (round_zero n). now apply round_mono. Qed.

Lemma last_In {A} (l : list A) (x : A) : last l = Some x -> In x l.
Proof.
  intros H. apply last_Some in H as [l' ->]. apply in_or_app. right. now left.
Qed.

(** X7.  Well-formed spans stay well-formed.  When every backend word
    with a non-empty trimmed text has [0 <= start <= end] and a
    probability in [0, 1], every entry of [words] has
    [0 <= start <= end] and a probability in [0, 1], and [total_duration]
    is not negative. *)
Theorem well_formed_spans_preserved
    (segments_list : list Segment) (info : TranscriptionInfo) :
  (forall segment w, In segment segments_list -> In w (readable segment) ->
     strip (word w) <> [] ->
     0 <= start w /\ start w <= end_ w /\
     0 <= probability w /\ probability w <= 1) ->
  Forall (fun d => 0 <= d_start d /\ d_start d <= d_end d /\
                   0 <= d_probability d /\ d_probability d <= 1)
         (response_words segments_list info) /\
  0 <= total_duration (response_words segments_list info).
Proof.
  intros Hin.
  assert (HF : Forall (fun d => 0 <= d_start d /\ d_start d <= d_end d /\
                                0 <= d_probability d /\ d_probability d <= 1)
                      (response_words segments_list info)).
  { apply response_words_Forall.
    - intros segment w Hs Hw Ha. apply truthy_true in Ha.
      destruct (Hin segment w Hs Hw Ha) as (H0 & Hse & Hp0 & Hp1). simpl.
      split; [now apply round_nonneg|]. split; [now apply round_mono|].
      split; [now apply round_nonneg|].
      rewrite <- (round_one 3). now apply round_mono.
    - intros i t _. simpl. unfold estimated_duration.
      split; [|split; [|split; discriminate]].
      + apply round_nonneg. apply Qmult_le_0_compat; [|discriminate].
        change 0 with (inject_Z 0). rewrite <- Zle_Qle. lia.
      + apply round_mono. apply Qmult_le_compat_r; [|discriminate].
        rewrite <- Zle_Qle. lia. }
  split; [exact HF|]. unfold total_duration.
  destruct (last (response_words segments_list info)) as [d|] eqn:El;
    [|discriminate].
  apply last_In in El. rewrite List.Forall_forall in HF.
  destruct (HF d El) as (H0 & Hse & _). lra.
Qed.

End Ranges.

Section TextAndWords.
Import Fast FastSpec Pipeline.

Lemma fallback_mode_words segments_list info :
  fallback_mode segments_list info ->
  response_words segments_list info =
  imap synthetic (split (response_text segments_list info)).
Proof.
  intros [Hw Hft]. unfold response_words, response_text in *.
  rewrite normalize_words.
  destruct (extract_init segments_list info []) as (Hw' & _ & Hft' & _).
  rewrite Hw' in Hw. rewrite Hft' in Hft. rewrite Hft', Hw.
  apply truthy_true in Hft. now rewrite Hft.
Qed.

Lemma last_imap {A B} (f : nat -> A -> B) (l : list A) :
  last (imap f l) = f (pred (length l)) <$> last l.
Proof. now rewrite !last_lookup, length_imap, list_lookup_imap. Qed.

(** X8.  When the fallback is taken, the words of the response are
    exactly the whitespace-separated tokens of its text, each lasts half
    a second and starts where the one before ends, and [total_duration]
    is half a second per token. *)
Theorem fallback_words_are_the_tokens_of_the_text
    (segments_list : list Segment) (info : TranscriptionInfo) :
  fallback_mode segments_list info ->
  let out := response_words segments_list info in
  let tokens := split (response_text segments_list info) in
  List.map d_word out = tokens /\
  (forall i a, out !! i = Some a -> d_end a - d_start a == 0.5) /\
  (forall i a b, out !! i = Some a -> out !! (S i) = Some b ->
                 d_end a == d_start b) /\
  total_duration out == inject_Z (Z.of_nat (length tokens)) * 0.5.
Proof.
  intros Hmode out tokens. subst out.
  rewrite (fallback_mode_words _ _ Hmode). fold tokens.
  split; [|split; [|split]].
  - apply list_eq. intros i.
    rewrite list_lookup_fmap, list_lookup_imap.
    now destruct (tokens !! i).
  - intros i a Ha. rewrite list_lookup_imap in Ha.
    destruct (tokens !! i); [|discriminate]. injection Ha as <-. simpl.
    unfold estimated_duration. rewrite !round_halves.
    rewrite Nat2Z.inj_add, inject_Z_plus. change (inject_Z (Z.of_nat 1)) with 1.
    ring.
  - intros i a b Ha Hb. rewrite list_lookup_imap in Ha, Hb.
    destruct (tokens !! i); [|discriminate]. injection Ha as <-.
    destruct (tokens !! S i); [|discriminate]. injection Hb as <-. simpl.
    now replace (i + 1)%nat with (S i) by lia.
  - unfold total_duration. rewrite last_imap.
    destruct tokens as [|t0 ts] eqn:E; [reflexivity|].
    destruct (last (t0 :: ts)) as [t|] eqn:El;
      [|apply last_None in El; discriminate].
    simpl. unfold estimated_duration.
    replace (length ts + 1)%nat with (S (length ts)) by lia.
    apply round_halves.
Qed.

Lemma segment_parts_are_words (segment : Segment) :
  readable segment <> [] ->
  segment_parts segment = List.map d_word (segment_words segment).
Proof.
  unfold segment_parts, segment_words, readable.
  destruct (words segment) as [| |items [e|]]; try congruence.
  destruct items as [|w ws]; [congruence|]. intros _.
  rewrite List.map_map. reflexivity.
Qed.

(** X9.  When every segment delivers at least one word, the text of the
    response is the words of the response joined by single spaces. *)
Theorem text_is_the_words_joined
    (segments_list : list Segment) (info : TranscriptionInfo) :
  (forall segment, In segment segments_list -> readable segment <> []) ->
  response_text segments_list info =
  join (str " ") (List.map d_word (response_words segments_list info)).
Proof.
  intros Hall.
  assert (Hp : flat_map segment_parts segments_list =
               List.map d_word (flat_map segment_words segments_list)).
  { induction segments_list as [|sg r IH]; [reflexivity|]. simpl.
    rewrite List.map_app, segment_parts_are_words, IH; [reflexivity| |].
    - intros sg' Hin. apply Hall. now right.
    - apply Hall. now left. }
  unfold response_text, response_words.
  rewrite response_text_eq, normalize_words, Hp.
  destruct (flat_map segment_words segments_list); reflexivity.
Qed.

Lemma split_run_nil (s tok : pystr) :
  split_run tok s = [] <-> tok = [] /\ Forall (fun c => isspace c = true) s.
Proof.
  revert tok. induction s as [|c r IH]; intros tok; simpl.
  - destruct tok; simpl; split; try (intros [H _]); try discriminate; auto.
  - destruct (isspace c) eqn:Hc.
    + destruct tok as [|t0 tok']; simpl.
      * rewrite IH. split; intros [H1 H2]; split; auto.
        now inversion H2.
      * split; [discriminate|intros [H _]; discriminate].
    + rewrite IH. split.
      * intros [H _]. destruct tok; discriminate.
      * intros [_ H]. inversion H; congruence.
Qed.

Lemma In_join (sep p : pystr) (parts : list pystr) (c : N) :
  In p parts -> In c p -> In c (join sep parts).
Proof.
  induction parts as [|q rest IH]; [intros []|]. intros Hp Hc.
  destruct rest as [|q' rest'].
  - destruct Hp as [->|[]]. exact Hc.
  - change (In c (q ++ sep ++ join sep (q' :: rest'))).
    rewrite !in_app_iff. destruct Hp as [->|Hp]; [now left|].
    right. right. now apply IH.
Qed.

Lemma segment_words_give_parts (segments_list : list Segment) :
  flat_map segment_words segments_list <> [] ->
  exists p, In p (flat_map segment_parts segments_list) /\ trimmed_nonempty p.
Proof.
  intros Hne.
  destruct (flat_map segment_words segments_list) as [|d l] eqn:E;
    [congruence|].
  assert (Hd : In d (flat_map segment_words segments_list))
    by (rewrite E; now left).
  apply in_flat_map in Hd as (segment & Hs & Hd).
  unfold segment_words in Hd. apply in_map_iff in Hd as (w & _ & Hw).
  pose proof Hw as Hw'. apply List.filter_In in Hw' as [Hr Ha].
  exists (strip (word w)). split.
  - apply in_flat_map. exists segment. split; [exact Hs|].
    rewrite segment_parts_are_words by (intros H0; rewrite H0 in Hr; destruct Hr).
    unfold segment_words. rewrite List.map_map. simpl.
    apply in_map_iff. exists w. split; [reflexivity|exact Hw].
  - apply strip_trimmed. now apply truthy_true.
Qed.

(** X10.  The response has no words exactly when its text holds nothing
    but whitespace: as soon as the text has one other character, the
    response has at least one word. *)
Theorem no_words_iff_blank_text
    (segments_list : list Segment) (info : TranscriptionInfo) :
  response_words segments_list info = [] <->
  Forall (fun c => isspace c = true) (response_text segments_list info).
Proof.
  unfold response_words, response_text.
  rewrite normalize_words, response_text_eq.
  set (ft := join (str " ") (flat_map segment_parts segments_list)).
  destruct (flat_map segment_words segments_list) as [|d l] eqn:E; simpl.
  - destruct (truthy ft) eqn:T.
    + split.
      * intros H. apply (f_equal length) in H.
        rewrite length_imap in H. apply length_zero_iff_nil in H.
        now apply split_run_nil in H.
      * intros H. unfold split.
        replace (split_run [] ft) with (@nil pystr);
          [reflexivity|symmetry; apply split_run_nil; auto].
    + apply truthy_false in T. rewrite T. split; auto.
  - split; [discriminate|]. intros Hsp.
    destruct (segment_words_give_parts segments_list) as (p & Hp & Hne & Hs);
      [rewrite E; discriminate|].
    pose proof (strip_no_outer_space p) as [Hh _]. rewrite Hs in Hh.
    destruct p as [|c p']; [congruence|].
    assert (Hc : In c ft) by (apply (In_join _ (c :: p')); [exact Hp|now left]).
    rewrite List.Forall_forall in Hsp. specialize (Hsp c Hc).
    unfold nonspace in Hh. congruence.
Qed.

End TextAndWords.

Section Composition.
Import Fast FastSpec Pipeline.

Lemma join_app (sep : pystr) (l1 l2 : list pystr) :
  l1 <> [] -> l2 <> [] ->
  join sep (l1 ++ l2) = join sep l1 ++ sep ++ join sep l2.
Proof.
  intros H1 H2. induction l1 as [|p r IH]; [congruence|].
  destruct r as [|q r'].
  - destruct l2; [congruence|reflexivity].
  - change (p ++ sep ++ join sep ((q :: r') ++ l2) =
            (p ++ sep ++ join sep (q :: r')) ++ sep ++ join sep l2).
    rewrite IH by discriminate. now rewrite <- !app_assoc.
Qed.

(** X11.  The loop over the segments composes: for two batches of
    segments in a row, [words_data] and [full_text_parts] are those of
    the first batch followed by those of the second; the joined text is
    the two texts with one space between them when both batches
    contribute a part, and the text of the other batch when one
    contributes none. *)
Theorem extraction_composes
    (batch1 batch2 : list Segment) (info : TranscriptionInfo)
    (log0 : list log_record) :
  let st l := snd (extract l info (init log0)) in
  let full_text l := fst (extract l info (init log0)) in
  words_data (st (batch1 ++ batch2)) =
    words_data (st batch1) ++ words_data (st batch2) /\
  full_text_parts (st (batch1 ++ batch2)) =
    full_text_parts (st batch1) ++ full_text_parts (st batch2) /\
  (full_text_parts (st batch1) = [] ->
   full_text (batch1 ++ batch2) = full_text batch2) /\
  (full_text_parts (st batch2) = [] ->
   full_text (batch1 ++ batch2) = full_text batch1) /\
  (full_text_parts (st batch1) <> [] -> full_text_parts (st batch2) <> [] ->
   full_text (batch1 ++ batch2) =
   full_text batch1 ++ str " " ++ full_text batch2).
Proof.
  intros st full_text. subst st full_text. cbv beta.
  destruct (extract_init (batch1 ++ batch2) info log0) as (Hw & Hp & Hft & _).
  destruct (extract_init batch1 info log0) as (Hw1 & Hp1 & Hft1 & _).
  destruct (extract_init batch2 info log0) as (Hw2 & Hp2 & Hft2 & _).
  rewrite Hw, Hp, Hft, Hw1, Hp1, Hft1, Hw2, Hp2, Hft2, !flat_map_app.
  split; [reflexivity|]. split; [reflexivity|].
  split; [intros ->; reflexivity|].
  split; [intros ->; now rewrite app_nil_r|].
  apply join_app.
Qed.

Lemma silent_segment_contributes_nothing (segment : Segment) :
  silent_segment segment ->
  segment_words segment = [] /\ segment_parts segment = [].
Proof.
  unfold silent_segment, segment_words, segment_parts, readable.
  destruct (words segment) as [| |[|w ws] [e|]]; try contradiction.
  - intros ->. split; reflexivity.
  - intros ->. split; reflexivity.
  - intros H. change (List.filter accepted (w :: ws)) with
      (List.filter accepted (w :: ws)) in *.
    rewrite H. split; reflexivity.
Qed.

(** X12.  A segment without a usable word and without usable text
    (only blank words, or no word-level data and a blank text) can be
    added anywhere without changing the response. *)
Theorem silent_segment_is_neutral
    (before after : list Segment) (segment : Segment)
    (info : TranscriptionInfo) (log0 : list log_record) :
  silent_segment segment ->
  fst (normalize (before ++ segment :: after) info (init log0)) =
  fst (normalize (before ++ after) info (init log0)).
Proof.
  intros Hs. apply silent_segment_contributes_nothing in Hs as [Hw Hp].
  rewrite !normalize_body. unfold response_text, response_words.
  rewrite !response_text_eq, !normalize_words, !flat_map_app. simpl.
  rewrite Hw, Hp. reflexivity.
Qed.

End Composition.

Section Logs.
Import Fast FastSpec Pipeline.

Lemma errors_seq (m k : M unit) (st : State) (l1 l2 : list log_record) :
  List.filter is_error (log (exec m st)) =
    List.filter is_error (log st) ++ l1 ->
  (forall st', List.filter is_error (log (exec k st')) =
               List.filter is_error (log st') ++ l2) ->
  List.filter is_error (log (exec (m ;; k) st)) =
    List.filter is_error (log st) ++ l1 ++ l2.
Proof.
  intros H1 H2. rewrite exec_exec_seq, H2, H1. now rewrite app_assoc.
Qed.

Lemma errors_logger (lv : level) (msg : message) (st : State) :
  List.filter is_error (log (exec (logger lv msg) st)) =
  List.filter is_error (log st) ++
  (if is_error (lv, msg) then [(lv, msg)] else []).
Proof.
  unfold exec, logger. simpl. rewrite List.filter_app. simpl.
  now destruct (is_error (lv, msg)).
Qed.

Lemma errors_quiet_seq (lv : level) (msg : message) (k : M unit)
    (st : State) (l : list log_record) :
  is_error (lv, msg) = false ->
  (forall st', List.filter is_error (log (exec k st')) =
               List.filter is_error (log st') ++ l) ->
  List.filter is_error (log (exec (logger lv msg ;; k) st)) =
  List.filter is_error (log st) ++ l.
Proof.
  intros Hq H. change l with ([] ++ l).
  apply errors_seq; [|exact H]. rewrite errors_logger. now rewrite Hq.
Qed.

Lemma errors_error_seq (msg : message) (k : M unit) (st : State) :
  (forall st', List.filter is_error (log (exec k st')) =
               List.filter is_error (log st') ++ []) ->
  List.filter is_error (log (exec (logger ERROR msg ;; k) st)) =
  List.filter is_error (log st) ++ [(ERROR, msg)].
Proof.
  intros H. change [(ERROR, msg)] with ([(ERROR, msg)] ++ []).
  apply errors_seq; [apply errors_logger|exact H].
Qed.

Lemma errors_word_loop (ws : list Word) (st : State) :
  List.filter is_error (log (exec (for_ ws word_body) st)) =
  List.filter is_error (log st).
Proof.
  revert st. induction ws as [|w ws IH]; intros st; [reflexivity|].
  simpl for_. rewrite exec_exec_seq, IH.
  unfold word_body, when. destruct (truthy (strip (word w))); [|reflexivity].
  unfold exec, bind, words_data_append, full_text_parts_append, logger.
  simpl. rewrite List.filter_app. simpl. now rewrite app_nil_r.
Qed.

Lemma errors_append_text (b : bool) (s : pystr) (st : State) :
  List.filter is_error
    (log (exec (if b then full_text_parts_append s else ret tt) st)) =
  List.filter is_error (log st) ++ [].
Proof. rewrite app_nil_r. now destruct b. Qed.

(** One segment logs an error exactly when its words cannot be read. *)
Lemma errors_segment (segment : Segment) (st : State) :
  List.filter is_error (log (exec (segment_body segment) st)) =
  List.filter is_error (log st) ++
  match read_failure segment with
  | Some e => [(ERROR, MsgErrorExtracting e)]
  | None => []
  end.
Proof.
  unfold segment_body, read_failure, hasattr_words.
  destruct (words segment) as [| |items [e|]]; cbn [andb is_not_None list_].
  - do 3 (apply errors_quiet_seq; [reflexivity|]; intros ?).
    apply errors_append_text.
  - do 3 (apply errors_quiet_seq; [reflexivity|]; intros ?).
    apply errors_append_text.
  - do 2 (apply errors_quiet_seq; [reflexivity|]; intros ?).
    apply errors_error_seq. intros ?. apply (errors_append_text true).
  - do 3 (apply errors_quiet_seq; [reflexivity|]; intros ?).
    destruct items as [|w ws]; cbn [truthy].
    + apply errors_quiet_seq; [reflexivity|]. intros ?.
      apply (errors_append_text true).
    + rewrite app_nil_r. apply (errors_word_loop (w :: ws)).
Qed.

Lemma errors_segments (segments_list : list Segment) (st : State) :
  List.filter is_error (log (exec (for_ segments_list segment_body) st)) =
  List.filter is_error (log st) ++
  List.map (fun e => (ERROR, MsgErrorExtracting e))
           (omap read_failure segments_list).
Proof.
  revert st. induction segments_list as [|sg r IH]; intros st.
  - simpl. now rewrite app_nil_r.
  - simpl for_. rewrite exec_exec_seq, IH, errors_segment, <- app_assoc.
    f_equal. simpl. now destruct (read_failure sg).
Qed.

(** X13.  In the log of a 200 answer of the faster-whisper handler, the
    records of level ERROR are exactly the failed reads of
    [segment.words], one per such segment, in segment order, each with
    the exception that was raised. *)
Theorem logged_errors_are_the_failed_reads
    (request : Request) (model : Fast.Model) (b : pyval)
    (lg : list log_record) (segments_list : list Segment)
    (info : TranscriptionInfo) :
  Fast.transcribe request model = ((b, 200%nat), lg) ->
  model (language_hint request) = inr (segments_list, info) ->
  List.filter is_error lg =
  List.map (fun e => (ERROR, MsgErrorExtracting e))
           (omap read_failure segments_list).
Proof.
  unfold Fast.transcribe, language_hint. intros H Hm.
  destruct (files request !! "file") as [f|]; [|discriminate].
  destruct (negb (truthy (filename f))); [discriminate|].
  rewrite Hm in H. rewrite normalize_phases in H. injection H as _ <-.
  rewrite fallback_spec.
  set (st0 := init _). set (st1 := snd (extract segments_list info st0)).
  assert (H1 : List.filter is_error (log st1) =
               List.map (fun e => (ERROR, MsgErrorExtracting e))
                        (omap read_failure segments_list)).
  { subst st1. unfold extract. rewrite exec_seq, exec_seq.
    set (st' := exec (for_ segments_list segment_body) _).
    assert (Hs : List.filter is_error (log st') =
                 List.map (fun e => (ERROR, MsgErrorExtracting e))
                          (omap read_failure segments_list)).
    { subst st'. rewrite errors_segments, errors_logger. reflexivity. }
    clearbody st'. cbn. rewrite !List.filter_app. simpl.
    rewrite !app_nil_r. exact Hs. }
  destruct (negb _ && _); [|exact H1].
  simpl. rewrite List.filter_app, H1. simpl. now rewrite app_nil_r.
Qed.

End Logs.

(** ** Start-up, the global model and the temporary file *)

Section Lifecycle.
Import Fast FastSpec Pipeline App.

(** X14.  Run as a script, the server exits with code 1 when the model
    cannot be constructed, after logging the error, and otherwise serves
    on 0.0.0.0:9000 with the model loaded, so that [/health] reports
    [model_loaded] true: it never serves without a model. *)
Theorem script_serves_only_with_a_model
    {Model : Type} (construct : exn + Model) :
  match fst (main construct) with
  | Exited code =>
      code = 1%Z /\
      exists e, construct = inl e /\
                In (ERROR, MsgErrorLoadingModel e) (snd (main construct))
  | Running model host port =>
      host = "0.0.0.0"%string /\ port = 9000%Z /\
      (exists m, construct = inr m /\ model = Some m) /\
      forall name, getitem (fst (health name model)) "model_loaded" =
                   Some (PBool true)
  end.
Proof.
  destruct construct as [e|m]; simpl.
  - split; [reflexivity|]. exists e. split; [reflexivity|]. right. now left.
  - repeat split; eauto.
Qed.

Lemma unlink_created (tmp_path : string) (fs : gset string) :
  tmp_path ∉ fs ->
  unlink_if_exists tmp_path (fs ∪ {[tmp_path]}) = fs /\
  (fs ∪ {[tmp_path]}) ∖ {[tmp_path]} = fs.
Proof.
  intros Hfresh.
  assert (Hd : (fs ∪ {[tmp_path]}) ∖ {[tmp_path]} = fs).
  { apply set_eq. intros x.
    rewrite elem_of_difference, elem_of_union, elem_of_singleton.
    split.
    - intros [[H|H] Hn]; [exact H|contradiction].
    - intros H. split; [now left|]. intros ->. contradiction. }
  split; [|exact Hd]. unfold unlink_if_exists.
  destruct (decide (tmp_path ∈ fs ∪ {[tmp_path]})) as [_|Hn]; [exact Hd|].
  exfalso. apply Hn. apply elem_of_union. right. now apply elem_of_singleton.
Qed.


(** X16.  The temporary file never outlives the request once the upload
    is saved: when saving does not raise, or the upload is rejected, the
    file system after either handler is the one before it, whether the
    answer is 200, 400 or 500 and whether the model is loaded or not. *)
Theorem temporary_file_is_removed
    (request : Request) (io : IO) (fs : gset string) :
  (forall tmp_path, NamedTemporaryFile io = inr tmp_path -> tmp_path ∉ fs) ->
  save io = None \/ ~ accepted_upload request ->
  (forall model, snd (FastApp.transcribe request model io fs) = fs) /\
  (forall model, snd (SimpleApp.transcribe request model io fs) = fs).
Proof.
  intros Hfresh Hsave. pose proof (accepted_upload_dec request) as Hacc.
  split; intros model.
  - unfold FastApp.transcribe.
    destruct (files request !! "file") as [f|]; [|reflexivity].
    destruct (truthy (filename f)); [|reflexivity]. simpl.
    destruct Hsave as [Hsave|Hrej]; [|contradiction].
    rewrite Hsave. destruct (NamedTemporaryFile io) as [e|p]; [reflexivity|].
    destruct (unlink_created p fs (Hfresh p eq_refl)) as [Hu Hd].
    destruct (FastApp.call model _) as [e|[segments_list info]];
      [exact Hu|].
    destruct (normalize segments_list info _). exact Hd.
  - unfold SimpleApp.transcribe.
    destruct (files request !! "file") as [f|]; [|reflexivity].
    destruct (truthy (filename f)); [|reflexivity]. simpl.
    destruct Hsave as [Hsave|Hrej]; [|contradiction].
    rewrite Hsave. destruct (NamedTemporaryFile io) as [e|p]; [reflexivity|].
    destruct (unlink_created p fs (Hfresh p eq_refl)) as [Hu Hd].
    destruct (SimpleApp.call model _) as [e|result]; [exact Hu|].
    destruct (result !! "text") as [[]|]; simpl; assumption.
Qed.

(** X17.  When saving the accepted upload raises, both handlers answer
    500 with the text of that exception without calling the backend, and
    the temporary file that was created is left behind. *)
Theorem failed_save_leaves_the_temporary_file
    (request : Request) (io : IO) (fs : gset string)
    (tmp_path : string) (e : exn) :
  accepted_upload request ->
  NamedTemporaryFile io = inr tmp_path -> save io = Some e ->
  let answer :=
    ((PDict [("error", PStr (str_exn e))], 500%nat),
     [(INFO, MsgTranscribing (language_hint request));
      (ERROR, MsgTranscriptionError e)]) in
  (forall model,
     FastApp.transcribe request model io fs = (answer, fs ∪ {[tmp_path]})) /\
  (forall model,
     SimpleApp.transcribe request model io fs = (answer, fs ∪ {[tmp_path]})) /\
  tmp_path ∈ fs ∪ {[tmp_path]}.
Proof.
  intros Hup Htmp Hsave answer.
  pose proof (accepted_upload_dec request) as Hacc.
  unfold FastApp.transcribe, SimpleApp.transcribe.
  rewrite Htmp, Hsave.
  destruct (files request !! "file") as [f|]; [|contradiction].
  destruct (truthy (filename f)); [|contradiction]. simpl.
  repeat split. apply elem_of_union. right. now apply elem_of_singleton.
Qed.

(** X18.  When the global model was never loaded, [/health] reports
    [model_loaded] false, and an accepted upload is answered by both
    handlers with 500 and the text of the [AttributeError] on [None];
    the temporary file is removed all the same. *)
Theorem unloaded_model_fails_inference
    (request : Request) (io : IO) (fs : gset string) (tmp_path : string) :
  accepted_upload request ->
  NamedTemporaryFile io = inr tmp_path -> save io = None ->
  tmp_path ∉ fs ->
  let e := AttributeError "NoneType" "transcribe" in
  let answer :=
    ((PDict [("error",
              PStr (str "'NoneType' object has no attribute 'transcribe'"))],
      500%nat),
     [(INFO, MsgTranscribing (language_hint request));
      (ERROR, MsgTranscriptionError e)]) in
  FastApp.transcribe request None io fs = (answer, fs) /\
  SimpleApp.transcribe request None io fs = (answer, fs) /\
  getitem (fst (FastApp.health None)) "model_loaded" = Some (PBool false) /\
  getitem (fst (SimpleApp.health None)) "model_loaded" = Some (PBool false).
Proof.
  intros Hup Htmp Hsave Hfresh e answer.
  pose proof (accepted_upload_dec request) as Hacc.
  destruct (unlink_created tmp_path fs Hfresh) as [Hu _].
  unfold FastApp.transcribe, SimpleApp.transcribe.
  rewrite Htmp, Hsave.
  destruct (files request !! "file") as [f|]; [|contradiction].
  destruct (truthy (filename f)); [|contradiction]. simpl.
  rewrite Hu. repeat split.
Qed.

End Lifecycle.

Section SimpleHandler.
Import Pipeline.

(** X19.  In a 200 answer of the OpenAI-whisper handler the text is the
    backend's text without the whitespace at its ends, the language is
    the backend's 'language' entry whenever the result has one, whatever
    its value, and language_probability is 1.0. *)
Theorem simple_response_fields_values
    (request : Request) (model : Simple.Model) (b : pyval)
    (lg : list log_record) :
  Simple.transcribe request model = ((b, 200%nat), lg) ->
  exists result s,
    model (language_hint request) = inr result /\
    result !! "text" = Some (PStr s) /\
    getitem b "text" = Some (PStr (strip s)) /\
    no_outer_space (strip s) /\ strip (strip s) = strip s /\
    (forall v, result !! "language" = Some v ->
               getitem b "language" = Some v) /\
    getitem b "language_probability" = Some (PFloat 1.0).
Proof.
  unfold Simple.transcribe, language_hint. intros H.
  destruct (files request !! "file") as [f|]; [|discriminate].
  destruct (negb (truthy (filename f))); [discriminate|].
  destruct (model _) as [e|result]; [discriminate|].
  destruct (result !! "text") as [[| | | |s| |]|] eqn:Ht; try discriminate.
  injection H as <- _. exists result, s.
  pose proof (strip_no_outer_space s) as Ho.
  split; [reflexivity|]. split; [exact Ht|]. split; [reflexivity|].
  split; [exact Ho|]. split; [now apply no_outer_space_strip|].
  split; [|reflexivity]. intros v Hv. simpl. now rewrite Hv.
Qed.

End SimpleHandler.

(** ** The further properties at concrete inputs *)

Section MoreInstances.
Import Fast FastSpec Pipeline App Examples MoreExamples.

Lemma rejected_upload_ignores_backend_witness :
  ~ accepted_upload request_without_file /\
  Fast.transcribe request_without_file (fast_model [spoken]) =
  Fast.transcribe request_without_file (fast_model []).
Proof.
  assert (H : ~ accepted_upload request_without_file).
  { intros (f & Hf & _). discriminate. }
  split; [exact H|].
  exact (proj1 (proj1 (rejected_upload_ignores_backend request_without_file H)
                  (fast_model [spoken]) (fast_model []))).
Defined.


Lemma well_formed_spans_preserved_witness :
  (forall segment w, In segment [spoken] -> In w (readable segment) ->
     strip (word w) <> [] ->
     0 <= start w /\ start w <= end_ w /\
     0 <= probability w /\ probability w <= 1) /\
  0 <= total_duration (response_words [spoken] info_ar).
Proof.
  assert (H : forall segment w, In segment [spoken] ->
                In w (readable segment) -> strip (word w) <> [] ->
                0 <= start w /\ start w <= end_ w /\
                0 <= probability w /\ probability w <= 1).
  { intros segment w [<-|[]] Hw Hne.
    destruct Hw as [<-|[<-|[<-|[]]]];
      [|exfalso; apply Hne; reflexivity|];
      repeat split; unfold Qle; simpl; lia. }
  split; [exact H|].
  exact (proj2 (well_formed_spans_preserved [spoken] info_ar H)).
Defined.

Lemma fallback_words_are_the_tokens_of_the_text_witness :
  fallback_mode [plain; plain] info_ar /\
  List.map d_word (response_words [plain; plain] info_ar) =
    [str "hi"; str "hi"] /\
  total_duration (response_words [plain; plain] info_ar) == 1.
Proof.
  assert (H : fallback_mode [plain; plain] info_ar).
  { split; [reflexivity|discriminate]. }
  split; [exact H|].
  destruct (fallback_words_are_the_tokens_of_the_text
              [plain; plain] info_ar H) as (Hw & _ & _ & Hd).
  split; [exact Hw|]. apply (Qeq_trans _ _ _ Hd). reflexivity.
Defined.

Lemma text_is_the_words_joined_witness :
  (forall segment, In segment [spoken; greeting] -> readable segment <> []) /\
  response_text [spoken; greeting] info_ar =
  join (str " ")
       (List.map d_word (response_words [spoken; greeting] info_ar)).
Proof.
  assert (H : forall segment, In segment [spoken; greeting] ->
                readable segment <> []).
  { intros segment [<-|[<-|[]]]; discriminate. }
  split; [exact H|].
  exact (text_is_the_words_joined [spoken; greeting] info_ar H).
Defined.

Lemma silent_segment_is_neutral_witness :
  silent_segment blank_only /\
  fst (normalize ([spoken] ++ blank_only :: [plain]) info_ar (init [])) =
  fst (normalize ([spoken] ++ [plain]) info_ar (init [])).
Proof.
  assert (H : silent_segment blank_only) by reflexivity.
  split; [exact H|].
  exact (silent_segment_is_neutral [spoken] [plain] blank_only info_ar [] H).
Defined.

Lemma logged_errors_are_the_failed_reads_witness :
  let r := Fast.transcribe request_with_file
             (fast_model [spoken; unreadable; plain]) in
  status r = 200%nat /\
  List.filter is_error (snd r) =
  [(ERROR, MsgErrorExtracting (TypeError "'int' object is not iterable"))].
Proof.
  cbv zeta. split; [reflexivity|].
  exact (logged_errors_are_the_failed_reads
           request_with_file (fast_model [spoken; unreadable; plain])
           (body (Fast.transcribe request_with_file
                    (fast_model [spoken; unreadable; plain])))
           (snd (Fast.transcribe request_with_file
                   (fast_model [spoken; unreadable; plain])))
           [spoken; unreadable; plain] info_ar eq_refl eq_refl).
Defined.


Lemma tmp_is_fresh :
  forall tmp_path, NamedTemporaryFile io_ok = inr tmp_path ->
                   tmp_path ∉ other_files.
Proof.
  intros tmp_path H. injection H as <-. unfold other_files.
  intros Hin. apply elem_of_singleton in Hin. discriminate.
Defined.

Lemma temporary_file_is_removed_witness :
  (forall tmp_path, NamedTemporaryFile io_ok = inr tmp_path ->
                    tmp_path ∉ other_files) /\
  (save io_ok = None \/ ~ accepted_upload request_with_file) /\
  snd (FastApp.transcribe request_with_file (Some (fast_model [spoken]))
         io_ok other_files) = other_files.
Proof.
  split; [exact tmp_is_fresh|]. split; [now left|].
  exact (proj1 (temporary_file_is_removed request_with_file io_ok other_files
                  tmp_is_fresh (or_introl eq_refl))
               (Some (fast_model [spoken]))).
Defined.

Lemma upload_is_accepted : accepted_upload request_with_file.
Proof.
  eexists. split; [reflexivity|discriminate].
Defined.

Lemma failed_save_leaves_the_temporary_file_witness :
  accepted_upload request_with_file /\
  NamedTemporaryFile io_save_fails = inr "/tmp/tmpk3v9.flac"%string /\
  save io_save_fails = Some (Exception (str "No space left on device")) /\
  snd (FastApp.transcribe request_with_file (Some (fast_model [spoken]))
         io_save_fails other_files) =
  other_files ∪ {[ "/tmp/tmpk3v9.flac"%string ]}.
Proof.
  split; [exact upload_is_accepted|]. split; [reflexivity|].
  split; [reflexivity|].
  rewrite (proj1 (failed_save_leaves_the_temporary_file
                    request_with_file io_save_fails other_files
                    "/tmp/tmpk3v9.flac"
                    (Exception (str "No space left on device"))
                    upload_is_accepted eq_refl eq_refl)
                 (Some (fast_model [spoken]))).
  reflexivity.
Defined.

Lemma unloaded_model_fails_inference_witness :
  accepted_upload request_with_file /\
  NamedTemporaryFile io_ok = inr "/tmp/tmpk3v9.flac"%string /\
  save io_ok = None /\
  ("/tmp/tmpk3v9.flac"%string ∉ other_files) /\
  status (fst (FastApp.transcribe request_with_file None io_ok other_files))
    = 500%nat.
Proof.
  split; [exact upload_is_accepted|]. split; [reflexivity|].
  split; [reflexivity|]. split; [exact (tmp_is_fresh _ eq_refl)|].
  rewrite (proj1 (unloaded_model_fails_inference
                    request_with_file io_ok other_files "/tmp/tmpk3v9.flac"
                    upload_is_accepted eq_refl eq_refl
                    (tmp_is_fresh _ eq_refl))).
  reflexivity.
Defined.

Lemma simple_response_fields_values_witness :
  let r := Simple.transcribe request_with_file simple_model_fr in
  status r = 200%nat /\
  exists result s,
    simple_model_fr (language_hint request_with_file) = inr result /\
    result !! "text" = Some (PStr s) /\
    getitem (body r) "text" = Some (PStr (strip s)).
Proof.
  cbv zeta. split; [reflexivity|].
  destruct (simple_response_fields_values
              request_with_file simple_model_fr
              (body (Simple.transcribe request_with_file simple_model_fr))
              (snd (Simple.transcribe request_with_file simple_model_fr))
              eq_refl) as (result & s & Hm & Ht & Hb & _).
  exists result, s. auto.
Defined.

(** The language of the backend wins over the hint of the request. *)
Example simple_model_fr_response :
  fst (Simple.transcribe request_with_file simple_model_fr) =
  (PDict [("text", PStr (str "bonjour")); ("language", PStr (str "fr"));
          ("language_probability", PFloat 1.0)], 200%nat).
Proof. vm_compute. reflexivity. Qed.

End MoreInstances.
